(** * ColorFormat: a shallow embedding of [ColorFormat.cpp] and its properties

    The C++ class [ColorFormat] turns a text (or an unsigned integer) and a
    handful of colour and style tokens into a string carrying ANSI escape
    sequences.  This file embeds its static member functions as Rocq
    functions over [string] and states what the library's description
    promises about them.

    - [std::string] is [string] (a sequence of 8-bit characters),
      [std::string::npos] is [None];
    - [unsigned int] is [Z] in the range [0 <= n < 2^32], subtraction
      wraps around modulo [2^32];
    - [double] is the primitive binary64 [float];
    - [throw std::invalid_argument(what)] is the outcome [Thrown what];
    - [std::rand()] is a state-passing generator, a parameter of the
      section that embeds [rainbow]. *)

From Stdlib Require Import String Ascii List ZArith Lia Bool Arith.
From Stdlib Require Import Permutation.
From Stdlib Require Import Floats.
Import ListNotations.

Local Open Scope string_scope.

(* ------------------------------------------------------------------ *)
(** ** Outcomes: a returned value or a thrown [std::invalid_argument] *)

Inductive outcome (A : Type) : Type :=
| Returned (value : A)
| Thrown (what : string).

Arguments Returned {A} value.
Arguments Thrown {A} what.

Definition bind {A B : Type} (o : outcome A) (k : A -> outcome B) : outcome B :=
  match o with
  | Returned a => k a
  | Thrown w => Thrown w
  end.

Notation "x <- o ;; k" := (bind o (fun x => k))
  (at level 61, o at next level, right associativity).

(* ------------------------------------------------------------------ *)
(** ** The operations of [std::string] the source uses *)

Module StdString.

(** [s.empty()] *)
Definition empty (s : string) : bool :=
  match s with
  | EmptyString => true
  | String _ _ => false
  end.

(** [s.find(pat)]: position of the first occurrence of [pat]. *)
Fixpoint find (pat s : string) : option nat :=
  if prefix pat s then Some 0
  else match s with
       | EmptyString => None
       | String _ rest => option_map S (find pat rest)
       end.

(** [s.find(c, pos)]: position of the first [c] at or after [pos]. *)
Fixpoint find_char (c : ascii) (pos : nat) (s : string) : option nat :=
  match s with
  | EmptyString => None
  | String a rest =>
      match pos with
      | O => if Ascii.eqb a c then Some 0 else option_map S (find_char c 0 rest)
      | S pos' => option_map S (find_char c pos' rest)
      end
  end.

(** The characters of [s] from position [n] on. *)
Fixpoint drop (n : nat) (s : string) : string :=
  match n, s with
  | O, _ => s
  | S n', String _ rest => drop n' rest
  | S _, EmptyString => EmptyString
  end.

(** [s.erase(pos, len)] for [pos <= s.size()]. *)
Fixpoint erase (pos len : nat) (s : string) : string :=
  match pos, s with
  | O, _ => drop len s
  | S pos', String a rest => String a (erase pos' len rest)
  | S _, EmptyString => EmptyString
  end.

End StdString.

(* ------------------------------------------------------------------ *)
(** ** The token tables *)

Definition ESC : ascii := "027"%char.

(** [csi body] is the escape sequence ["\033[" body]. *)
Definition csi (body : string) : string := String ESC (String "[" body).

Definition RESET : string := csi "0m".

Definition _colors : list (string * string) :=
  [ ("red",     csi "31m"); ("green", csi "32m");
    ("yellow",  csi "33m"); ("blue",  csi "34m");
    ("magenta", csi "35m"); ("cyan",  csi "36m");
    ("white",   csi "37m"); ("black", csi "30m") ].

Definition _styles : list (string * string) :=
  [ ("bold",          csi "1m");
    ("underline",     csi "4m");
    ("italic",        csi "3m");
    ("strikethrough", csi "9m");
    ("blink",         csi "5m") ].

(** The inner loops [for (j ...) if (token == table[j][0]) { ...; break; }]:
    the first row whose name is the token, with its index. *)
Fixpoint lookup_from (j : nat) (token : string) (table : list (string * string))
  : option (nat * string) :=
  match table with
  | [] => None
  | (name, code) :: rows =>
      if String.eqb token name then Some (j, code)
      else lookup_from (S j) token rows
  end.

Definition lookup := lookup_from 0.

Definition is_color (token : string) : bool :=
  match lookup token _colors with Some _ => true | None => false end.

Definition is_style (token : string) : bool :=
  match lookup token _styles with Some _ => true | None => false end.

(* ------------------------------------------------------------------ *)
(** ** [removePreviousFormats] *)

(** One pass of the [while] loop per unit of fuel; every pass that goes on
    erases at least the three characters of a shortest escape sequence, so
    the length of the string is fuel enough. *)
Fixpoint removeLoop (fuel : nat) (s : string) : string :=
  match fuel with
  | O => s
  | S fuel' =>
      match StdString.find (csi "") s with
      | None => s
      | Some start =>
          match StdString.find_char "m" start s with
          | Some end_ => removeLoop fuel' (StdString.erase start (end_ - start + 1) s)
          | None => s
          end
      end
  end.

Definition removePreviousFormats (s : string) : string :=
  removeLoop (String.length s) s.

(* ------------------------------------------------------------------ *)
(** ** [formatString] *)

Definition msg_multiple_colors : string :=
  "❌ Multiple colors detected. Only one is allowed.".

Definition msg_duplicate_style (token : string) : string :=
  "❌ Duplicate style detected: " ++ token ++ ".".

Definition msg_unknown_format (token : string) : string :=
  "❌ Unknown format detected: " ++ token.

(** The locals [color], [formats] and [activeStyles] of [formatString]. *)
Record fmt_state : Type := FmtState {
  color : string;
  formats : string;
  activeStyles : list bool
}.

Definition fmt_init : fmt_state :=
  {| color := ""; formats := ""; activeStyles := repeat false 5 |}.

(** [activeStyles[j] = true] *)
Fixpoint mark (j : nat) (flags : list bool) : list bool :=
  match flags, j with
  | [], _ => []
  | _ :: rest, O => true :: rest
  | b :: rest, S j' => b :: mark j' rest
  end.

(** The body of the loop over [parameters]. *)
Definition classify (st : fmt_state) (token : string) : outcome fmt_state :=
  if StdString.empty token then Returned st
  else
    match lookup token _colors with
    | Some (_, code) =>
        if negb (StdString.empty (color st)) then Thrown msg_multiple_colors
        else Returned {| color := code; formats := formats st;
                         activeStyles := activeStyles st |}
    | None =>
        match lookup token _styles with
        | Some (j, code) =>
            if nth j (activeStyles st) false
            then Thrown (msg_duplicate_style token)
            else Returned {| color := color st;
                             formats := formats st ++ code;
                             activeStyles := mark j (activeStyles st) |}
        | None => Thrown (msg_unknown_format token)
        end
    end.

Fixpoint classifyAll (st : fmt_state) (parameters : list string) : outcome fmt_state :=
  match parameters with
  | [] => Returned st
  | token :: rest => st' <- classify st token ;; classifyAll st' rest
  end.

(** [formatString] over the array [parameters]. *)
Definition formatTokens (text : string) (parameters : list string) : outcome string :=
  if StdString.empty text then Returned ""
  else
    st <- classifyAll fmt_init parameters ;;
    let text' :=
      if negb (StdString.empty (color st)) || negb (StdString.empty (formats st))
      then removePreviousFormats text
      else text in
    Returned (color st ++ formats st ++ text' ++ RESET).

Definition formatString
  (text firstFormat secondFormat thirdFormat fourthFormat fifthFormat sixthFormat : string)
  : outcome string :=
  formatTokens text
    [firstFormat; secondFormat; thirdFormat; fourthFormat; fifthFormat; sixthFormat].

(* ------------------------------------------------------------------ *)
(** ** [formatUnsignedInteger] *)

(** [static_cast<char>('0' + d)] *)
Definition digit_char (d : Z) : ascii := ascii_of_nat (48 + Z.to_nat d).

(** The [do ... while (number)] loop; [acc] is [formattedUnsignedInteger].
    One pass per unit of fuel. *)
Fixpoint groupLoop (fuel : nat) (number : Z) (acc : string) (commaCount : nat) : string :=
  match fuel with
  | O => acc
  | S fuel' =>
      let sep := negb (StdString.empty acc)
                 && ((String.length acc - commaCount) mod 3 =? 0)%nat in
      let acc1 := if sep then String "," acc else acc in
      let commaCount1 := if sep then S commaCount else commaCount in
      let acc2 := String (digit_char (number mod 10)) acc1 in
      let number' := (number / 10)%Z in
      if (number' =? 0)%Z then acc2 else groupLoop fuel' number' acc2 commaCount1
  end.

(** A number has no more decimal digits than binary ones. *)
Definition digit_fuel (number : Z) : nat := S (Z.to_nat (Z.log2 number)).

Definition groupedDigits (number : Z) : string :=
  groupLoop (digit_fuel number) number "" 0.

Definition formatUnsignedInteger (number : Z)
  (firstFormat secondFormat thirdFormat fourthFormat fifthFormat sixthFormat : string)
  : outcome string :=
  formatString (groupedDigits number)
    firstFormat secondFormat thirdFormat fourthFormat fifthFormat sixthFormat.

(* ------------------------------------------------------------------ *)
(** ** [formatGradientUnsignedInteger] *)

Definition msg_gradient_color : string :=
  "❌ No color is aurotized with the gradiation function.".

(** [unsigned int] arithmetic. *)
Definition UINT_RANGE : Z := 2 ^ 32.

Definition is_uint (n : Z) : Prop := (0 <= n < UINT_RANGE)%Z.

Definition usub (a b : Z) : Z := ((a - b) mod UINT_RANGE)%Z.

(** [(double)n] for an [unsigned int]: exact, 32 bits fit the mantissa. *)
Definition double_of_uint (n : Z) : float := PrimFloat.of_uint63 (Uint63.of_Z n).

(** [(int)x]: truncation toward zero of a finite [double]. *)
Definition int_of_double (x : float) : Z :=
  match Prim2SF x with
  | S754_finite sign m e =>
      let magnitude := Z.shiftl (Z.pos m) e in
      if sign then (- magnitude)%Z else magnitude
  | _ => 0%Z
  end.

(** [std::ostream << int] in the default locale: plain base 10. *)
Fixpoint decimalLoop (fuel : nat) (number : Z) (acc : string) : string :=
  match fuel with
  | O => acc
  | S fuel' =>
      let acc' := String (digit_char (number mod 10)) acc in
      let number' := (number / 10)%Z in
      if (number' =? 0)%Z then acc' else decimalLoop fuel' number' acc'
  end.

Definition decimal (n : Z) : string :=
  if (n <? 0)%Z then String "-" (decimalLoop (digit_fuel (- n)) (- n) "")
  else decimalLoop (digit_fuel n) n "".

(** The first loop: is one of the parameters the name of a colour? *)
Definition hasColor (parameters : list string) : bool :=
  existsb (fun p => negb (StdString.empty p) && is_color p) parameters.

Definition tooLow (number minimum maximum : Z) : bool :=
  ((number <? minimum) && (minimum <? maximum)
   || (number >? minimum) && (minimum >? maximum)
   || negb (number =? maximum) && (minimum =? maximum))%Z.

Definition tooHigh (number minimum maximum : Z) : bool :=
  ((number >? maximum) && (maximum >? minimum)
   || (number <? maximum) && (maximum <? minimum))%Z.

Definition gradientRatio (number minimum maximum : Z) : float :=
  let reversed := (minimum >? maximum)%Z in
  let progress := if reversed then double_of_uint (usub number maximum)
                  else double_of_uint (usub number minimum) in
  let field := if reversed then double_of_uint (usub minimum maximum)
               else double_of_uint (usub maximum minimum) in
  let ratio := if negb (field =? 0)%float then (progress / field)%float else 1%float in
  let ratio := if (ratio <? 0)%float then 0%float else ratio in
  let ratio := if (1 <? ratio)%float then 1%float else ratio in
  if reversed then (1 - ratio)%float else ratio.

Definition gradientRed (ratio : float) : Z :=
  if (ratio <? 0.5)%float then 255%Z
  else int_of_double (255 * (1 - (ratio - 0.5) * 2))%float.

Definition gradientGreen (ratio : float) : Z :=
  if (ratio <? 0.5)%float then int_of_double (255 * ratio * 2)%float
  else 255%Z.

Definition gradientBlue : Z := 0%Z.

(** [16 + (red / 51) * 36 + (green / 51) * 6 + (blue / 51)] on [int]s. *)
Definition cubeIndex (red green blue : Z) : Z :=
  (16 + Z.quot red 51 * 36 + Z.quot green 51 * 6 + Z.quot blue 51)%Z.

Definition gradientIndex (number minimum maximum : Z) : Z :=
  let ratio := gradientRatio number minimum maximum in
  cubeIndex (gradientRed ratio) (gradientGreen ratio) gradientBlue.

Definition formatGradientUnsignedInteger (number minimum maximum : Z)
  (firstFormat secondFormat thirdFormat fourthFormat fifthFormat : string)
  : outcome string :=
  if hasColor [firstFormat; secondFormat; thirdFormat; fourthFormat; fifthFormat]
  then Thrown msg_gradient_color
  else if tooLow number minimum maximum
  then formatUnsignedInteger number "red" "blink" "bold" "" "" ""
  else if tooHigh number minimum maximum
  then formatUnsignedInteger number "green" "blink" "bold" "" "" ""
  else
    body <- formatUnsignedInteger number
              firstFormat secondFormat thirdFormat fourthFormat fifthFormat "" ;;
    Returned (csi ("38;5;" ++ decimal (gradientIndex number minimum maximum) ++ "m")
              ++ body ++ RESET).

(* ------------------------------------------------------------------ *)
(** ** [rainbow] *)

Definition msg_too_many_texts : string :=
  "❌ Too many text arguments for rainbow().".

Definition rainbow_symbol : string := "🌈".

(** The local array [colors] as [rainbow] initialises it. *)
Definition palette : list string :=
  [csi "31m"; csi "32m"; csi "33m"; csi "34m"; csi "35m"; csi "36m"].

(** [a[i] = x] on an array held as a list; [i] is in range wherever the
    source writes. *)
Fixpoint assign {A : Type} (i : nat) (x : A) (a : list A) : list A :=
  match a, i with
  | [], _ => []
  | _ :: rest, O => x :: rest
  | y :: rest, S i' => y :: assign i' x rest
  end.

(** The loop over [arguments]: styles go to [format], the one text to
    [text] (the local [string]); the first empty slot ends the scan. *)
Fixpoint scanArguments (text format : string) (arguments : list string)
  : outcome (string * string) :=
  match arguments with
  | [] => Returned (text, format)
  | argument :: rest =>
      if StdString.empty argument then Returned (text, format)
      else
        match lookup argument _styles with
        | Some (_, code) => scanArguments text (format ++ code) rest
        | None =>
            if StdString.empty text then scanArguments argument format rest
            else Thrown msg_too_many_texts
        end
  end.

(** The loop over the characters of the cleaned text, as a machine with
    two modes over the characters from position [i] on: [passthrough] is
    the inner [while] that copies an escape sequence up to its ['m'] (or
    to the end of the text) and then appends ['m']. *)
Fixpoint colorize (randomColors : list string) (passthrough : bool) (i : nat)
  (rest : string) : string :=
  match rest with
  | EmptyString => if passthrough then "m" else ""
  | String c rest' =>
      if passthrough then
        if Ascii.eqb c "m" then String "m" (colorize randomColors false (S i) rest')
        else String c (colorize randomColors true (S i) rest')
      else if Ascii.eqb c ESC
              && match rest' with String "[" _ => true | _ => false end
      then String c (colorize randomColors true (S i) rest')
      else nth (i mod 6) randomColors "" ++ String c (colorize randomColors false (S i) rest')
  end.

Section Rainbow.

(** [std::rand()] reads and advances a hidden state and returns a value
    between 0 and [RAND_MAX]. *)
Variable RandState : Type.
Variable rand : RandState -> nat * RandState.

(** The loop [for (i = 0; i < 6; i++)] that fills [randomColors];
    [todo] passes are left. *)
Fixpoint shuffleLoop (todo i : nat) (g : RandState) (colors randomColors : list string)
  : list string * RandState :=
  match todo with
  | O => (randomColors, g)
  | S todo' =>
      let (r, g') := rand g in
      let randomIndex := r mod (6 - i mod 6) in
      let randomColors' := assign i (nth randomIndex colors "") randomColors in
      let colors' := assign randomIndex (nth (5 - i) colors "") colors in
      shuffleLoop todo' (S i) g' colors' randomColors'
  end.

Definition shuffle (g : RandState) : list string * RandState :=
  shuffleLoop 6 0 g palette (repeat "" 8).

Definition rainbow (g : RandState)
  (firstArgument secondArgument thirdArgument fourthArgument fifthArgument : string)
  : outcome string * RandState :=
  match scanArguments "" ""
          [firstArgument; secondArgument; thirdArgument; fourthArgument; fifthArgument]
  with
  | Thrown what => (Thrown what, g)
  | Returned (text, format) =>
      if StdString.empty text then (Returned rainbow_symbol, g)
      else
        let (randomColors, g') := shuffle g in
        (Returned (format
                   ++ colorize randomColors false 0 (removePreviousFormats text)
                   ++ RESET), g')
  end.

End Rainbow.

(* ------------------------------------------------------------------ *)
(** ** The class [ColorFormat] *)

(** An object holds its one data member. *)
Record ColorFormat : Type := { _formattedString : string }.

(** The constructor formats with its five tokens; the sixth parameter of
    [formatString] keeps its default, the empty string.  An exception of
    [formatString] leaves no object. *)
Definition construct
  (text firstFormat secondFormat thirdFormat fourthFormat fifthFormat : string)
  : outcome ColorFormat :=
  s <- formatString text
         firstFormat secondFormat thirdFormat fourthFormat fifthFormat "" ;;
  Returned {| _formattedString := s |}.

(** The copy constructor. *)
Definition copy_construct (source : ColorFormat) : ColorFormat :=
  {| _formattedString := _formattedString source |}.

(** [operator=]: the new content of [*this]; [same_object] is the outcome
    of the test [this != &source], negated. *)
Definition assign_from (same_object : bool) (this source : ColorFormat) : ColorFormat :=
  if same_object then this
  else {| _formattedString := _formattedString source |}.

Definition getFormattedString (this : ColorFormat) : string := _formattedString this.

(* ------------------------------------------------------------------ *)
(** * The vocabulary of the properties

    Predicates and functions in which the properties below are stated and
    proved; none of them is part of the program.  Those named [spec_...]
    follow the words of the library's description, to be compared with the
    functions of the program. *)

(** ** Characters *)

Fixpoint string_forall (P : ascii -> bool) (s : string) : bool :=
  match s with
  | EmptyString => true
  | String c rest => P c && string_forall P rest
  end.

Definition not_ESC (c : ascii) : bool := negb (Ascii.eqb c ESC).

Definition not_m (c : ascii) : bool := negb (Ascii.eqb c "m").

Definition is_digit (c : ascii) : bool :=
  (48 <=? nat_of_ascii c)%nat && (nat_of_ascii c <=? 57)%nat.

Definition digit_or_comma (c : ascii) : bool :=
  Ascii.eqb c "," || is_digit c.

(** A text without the start marker [ESC '['] of an escape sequence. *)
Definition no_escape_start (text : string) : Prop :=
  StdString.find (csi "") text = None.

(** ** Tokens *)

Definition color_names : list string := map fst _colors.

Definition style_names : list string := map fst _styles.

(** The escape sequences of the two tables, and their concatenations. *)
Definition table_codes : list string := map snd _colors ++ map snd _styles.

Inductive escapes : string -> Prop :=
| escapes_nil : escapes ""
| escapes_cons (code rest : string) :
    In code table_codes -> escapes rest -> escapes (code ++ rest).

(** The three ways in which a list of tokens is refused: a second name of
    the colour table, twice the same name of the style table, a non-empty
    token that is a name of neither table. *)
Definition second_color (parameters : list string) : Prop :=
  exists l1 c1 l2 c2 l3,
    parameters = (l1 ++ c1 :: l2 ++ c2 :: l3)%list
    /\ In c1 color_names /\ In c2 color_names.

Definition repeated_style_of (token : string) (parameters : list string) : Prop :=
  In token style_names
  /\ exists l1 l2 l3, parameters = (l1 ++ token :: l2 ++ token :: l3)%list.

Definition unknown_token_of (token : string) (parameters : list string) : Prop :=
  In token parameters /\ token <> ""
  /\ ~ In token color_names /\ ~ In token style_names.

Definition repeated_style (parameters : list string) : Prop :=
  exists token, repeated_style_of token parameters.

Definition unknown_token (parameters : list string) : Prop :=
  exists token, unknown_token_of token parameters.

(** Is [token] the name of the style table at index [j]? *)
Definition style_index_is (j : nat) (token : string) : bool :=
  match lookup token _styles with
  | Some (k, _) => Nat.eqb k j
  | None => false
  end.

(** What the locals of [formatString] record about the tokens seen: a
    colour is set when one of them is a colour, the flag of a style is set
    when one of them is that style. *)
Record fmt_inv (st : fmt_state) (seen : list string) : Prop := {
  inv_color : StdString.empty (color st) = negb (existsb is_color seen);
  inv_length : length (activeStyles st) = 5;
  inv_styles : forall j,
      nth j (activeStyles st) false = existsb (style_index_is j) seen
}.

(** A token is refused after the tokens [seen] when it is a colour after a
    colour, a style seen before, or no name of either table. *)
Definition offends (seen : list string) (token : string) : bool :=
  negb (StdString.empty token)
  && (if is_color token then existsb is_color seen
      else if is_style token then existsb (String.eqb token) seen
      else true).

(** The message thrown for a refused token. *)
Definition expected_what (token : string) : string :=
  if is_color token then msg_multiple_colors
  else if is_style token then msg_duplicate_style token
  else msg_unknown_format token.

(** The first token of [parameters] that is refused, after [seen]. *)
Fixpoint first_offence (seen parameters : list string) : option string :=
  match parameters with
  | [] => None
  | token :: rest =>
      if offends seen token then Some token
      else first_offence (seen ++ [token]) rest
  end.

(** ** Numerals *)

(** The value of a numeral, most significant digit first. *)
Definition digit_value (c : ascii) : Z := Z.of_nat (nat_of_ascii c) - 48.

Fixpoint numeral_value_from (v : Z) (s : string) : Z :=
  match s with
  | EmptyString => v
  | String c rest => numeral_value_from (10 * v + digit_value c) rest
  end.

Definition numeral_value (s : string) : Z := numeral_value_from 0 s.

(** The base-10 numeral of [number]: digits only, of that value, and
    without a leading zero unless it is ["0"]. *)
Record numeral_of (number : Z) (s : string) : Prop := {
  numeral_digits : string_forall is_digit s = true;
  numeral_denotes : numeral_value s = number;
  numeral_canonical :
    match s with
    | EmptyString => False
    | String c rest => c = "0"%char -> rest = "" /\ number = 0%Z
    end
}.

(** The description's grouping, on a numeral: a separator follows a digit
    when the digits after it are a positive multiple of three. *)
Fixpoint spec_group_thousands (numeral : string) : string :=
  match numeral with
  | EmptyString => EmptyString
  | String d rest =>
      String d
        (if (0 <? String.length rest)%nat && (String.length rest mod 3 =? 0)%nat
         then String "," (spec_group_thousands rest)
         else spec_group_thousands rest)
  end.

(** ** The gradient *)

(** Within the bounds, given in either order. *)
Definition in_range (number minimum maximum : Z) : Prop :=
  (minimum <= number <= maximum \/ maximum <= number <= minimum)%Z.

(** The renderings of a number under and over the range. *)
Definition too_low_text (number : Z) : string :=
  csi "31m" ++ csi "5m" ++ csi "1m" ++ groupedDigits number ++ RESET.

Definition too_high_text (number : Z) : string :=
  csi "32m" ++ csi "5m" ++ csi "1m" ++ groupedDigits number ++ RESET.

(** The description's ratio: the position of the value over the span from
    the lower endpoint, 1.0 on a span of zero, clamped to [0, 1] and
    inverted when the bounds are given in descending order. *)
Definition spec_ratio (value lowerBound upperBound : Z) : float :=
  let low := Z.min lowerBound upperBound in
  let span := double_of_uint (Z.max lowerBound upperBound - low) in
  let position := double_of_uint (value - low) in
  let raw := if (span =? 0)%float then 1%float else (position / span)%float in
  let clamped := if (raw <? 0)%float then 0%float
                 else if (1 <? raw)%float then 1%float else raw in
  if (upperBound <? lowerBound)%Z then (1 - clamped)%float else clamped.

(** The description's two segments: up to 0.5 red is held and green rises,
    above 0.5 green is held and red falls; blue is 0. *)
Definition spec_rgb (ratio : float) : Z * Z * Z :=
  if (ratio <=? 0.5)%float
  then (255, int_of_double (255 * ratio * 2)%float, 0)%Z
  else (int_of_double (255 * (1 - (ratio - 0.5) * 2))%float, 255, 0)%Z.

(** The description's index in the 6 x 6 x 6 cube, divisions truncating. *)
Definition spec_cube_index (rgb : Z * Z * Z) : Z :=
  let '(r, g, b) := rgb in
  (16 + 36 * Z.quot r 51 + 6 * Z.quot g 51 + Z.quot b 51)%Z.

(** ** The rainbow *)

(** The description's painting of a text free of escape characters: the
    character at position [i] is preceded by the colour of slot [i mod 6]. *)
Fixpoint spec_paint (slots : list string) (i : nat) (text : string) : string :=
  match text with
  | EmptyString => EmptyString
  | String c rest => nth (i mod 6) slots "" ++ String c (spec_paint slots (S i) rest)
  end.

(** A generator for the examples: it counts its calls. *)
Definition counting_rand (calls : nat) : nat * nat := (calls * 7 + 3, S calls).

(** ** Further vocabulary *)

(** No escape sequence is left to erase: there is no start marker, or no
    ['m'] from the first start marker on. *)
Definition settled (s : string) : Prop :=
  match StdString.find (csi "") s with
  | None => True
  | Some start => StdString.find_char "m" start s = None
  end.

(** The escape sequence of a token in a table, empty for another token. *)
Definition code_of (table : list (string * string)) (token : string) : string :=
  match lookup token table with
  | Some (_, code) => code
  | None => ""
  end.

(** The escape sequences of the tokens of a list, in its order. *)
Fixpoint codes_of (table : list (string * string)) (tokens : list string) : string :=
  match tokens with
  | [] => ""
  | token :: rest => code_of table token ++ codes_of table rest
  end.

Definition nonempty (s : string) : bool := negb (StdString.empty s).

(** A numeral without its separators. *)
Fixpoint remove_commas (s : string) : string :=
  match s with
  | EmptyString => EmptyString
  | String c rest =>
      if Ascii.eqb c "," then remove_commas rest else String c (remove_commas rest)
  end.

(** The slots of [rainbow] before the first empty one. *)
Fixpoint before_gap (arguments : list string) : list string :=
  match arguments with
  | [] => []
  | argument :: rest =>
      if StdString.empty argument then [] else argument :: before_gap rest
  end.

(** The free texts among arguments: those that are no style names. *)
Definition texts_of (arguments : list string) : list string :=
  filter (fun a => negb (is_style a)) arguments.

(** The state of the generator after [n] calls of [std::rand()]. *)
Fixpoint after_draws {RandState : Type} (rand : RandState -> nat * RandState)
  (n : nat) (g : RandState) : RandState :=
  match n with
  | O => g
  | S n' => after_draws rand n' (snd (rand g))
  end.

(** What construction, copying and assignment keep true of an object: its
    string is empty or ends with the reset sequence. *)
Definition closed_by_reset (s : string) : Prop :=
  s = "" \/ exists body, s = body ++ RESET.

(** The objects that a program can hold: constructed, copied or assigned
    from such objects. *)
Inductive reachable : ColorFormat -> Prop :=
| reach_construct (text f1 f2 f3 f4 f5 : string) (o : ColorFormat) :
    construct text f1 f2 f3 f4 f5 = Returned o -> reachable o
| reach_copy (source : ColorFormat) :
    reachable source -> reachable (copy_construct source)
| reach_assign (same_object : bool) (this source : ColorFormat) :
    reachable this -> reachable source ->
    reachable (assign_from same_object this source).

(* ------------------------------------------------------------------ *)
(** * Properties *)

(** ** First runs *)

Example ex_plain : formatString "hello" "" "" "" "" "" "" = Returned ("hello" ++ RESET).
Proof. reflexivity. Qed.

Example ex_red_bold :
  formatString "x" "bold" "red" "blink" "" "" ""
  = Returned (csi "31m" ++ csi "1m" ++ csi "5m" ++ "x" ++ RESET).
Proof. reflexivity. Qed.

Example ex_strip :
  removePreviousFormats (csi "31m" ++ "a" ++ csi "0m" ++ "b" ++ csi "1") = "ab" ++ csi "1".
Proof. reflexivity. Qed.

(* ------------------------------------------------------------------ *)
(** ** Characters of a string *)

Lemma string_forall_impl (P Q : ascii -> bool) (s : string) :
  (forall c, P c = true -> Q c = true) ->
  string_forall P s = true -> string_forall Q s = true.
Proof.
  intros HPQ. induction s as [|c s IH]; simpl; auto.
  rewrite !andb_true_iff. intros [Hc Hs]. auto.
Qed.

Lemma string_forall_app (P : ascii -> bool) (s t : string) :
  string_forall P (s ++ t) = string_forall P s && string_forall P t.
Proof.
  induction s as [|c s IH]; simpl; auto.
  now rewrite IH, andb_assoc.
Qed.

Lemma digit_or_comma_not_ESC (c : ascii) :
  digit_or_comma c = true -> not_ESC c = true.
Proof.
  unfold digit_or_comma, not_ESC.
  destruct (Ascii.eqb_spec c ESC) as [->|]; auto.
Qed.

(** Without an escape character there is no escape sequence to find. *)
Lemma find_csi_no_ESC (s : string) :
  string_forall not_ESC s = true -> StdString.find (csi "") s = None.
Proof.
  induction s as [|c s IH]; [reflexivity|].
  simpl string_forall. rewrite andb_true_iff. intros [Hc Hs].
  unfold not_ESC in Hc. rewrite negb_true_iff in Hc.
  cbn [StdString.find csi prefix].
  destruct (ascii_dec ESC c) as [e|_].
  - subst c. rewrite Ascii.eqb_refl in Hc. discriminate.
  - fold (csi ""). now rewrite (IH Hs).
Qed.

Lemma removeLoop_no_csi (fuel : nat) (s : string) :
  StdString.find (csi "") s = None -> removeLoop fuel s = s.
Proof.
  intros H. destruct fuel; simpl; [reflexivity|]. now rewrite H.
Qed.

Lemma removePreviousFormats_no_ESC (s : string) :
  string_forall not_ESC s = true -> removePreviousFormats s = s.
Proof.
  intros H. apply removeLoop_no_csi. now apply find_csi_no_ESC.
Qed.

(* ------------------------------------------------------------------ *)
(** ** The digit text *)

Lemma digit_char_ok (number : Z) :
  digit_or_comma (digit_char (number mod 10)) = true.
Proof.
  assert (H : (0 <= number mod 10 < 10)%Z) by (apply Z.mod_pos_bound; lia).
  unfold digit_char.
  assert (Hd : (Z.to_nat (number mod 10) < 10)%nat) by lia.
  revert Hd. generalize (Z.to_nat (number mod 10)) as d. intros d Hd.
  do 10 (destruct d as [|d]; [reflexivity|]). lia.
Qed.

Lemma groupLoop_chars (fuel : nat) : forall number acc commaCount,
  string_forall digit_or_comma acc = true ->
  string_forall digit_or_comma (groupLoop fuel number acc commaCount) = true.
Proof.
  induction fuel as [|fuel IH]; intros number acc commaCount Hacc;
    cbn [groupLoop]; auto.
  set (sep := negb (StdString.empty acc) && _).
  assert (Hacc2 : string_forall digit_or_comma
                    (String (digit_char (number mod 10))
                       (if sep then String "," acc else acc)) = true).
  { cbn [string_forall]. rewrite digit_char_ok.
    destruct sep; cbn [string_forall andb]; auto. }
  destruct (number / 10 =? 0)%Z; auto.
Qed.

Lemma groupLoop_not_empty (fuel : nat) (number : Z) (acc : string) (commaCount : nat) :
  StdString.empty (groupLoop (S fuel) number acc commaCount) = false.
Proof.
  revert number acc commaCount.
  induction fuel as [|fuel IH]; intros number acc commaCount.
  - cbn [groupLoop]. now destruct (number / 10 =? 0)%Z.
  - change (groupLoop (S (S fuel)) number acc commaCount)
      with (let sep := negb (StdString.empty acc)
                       && ((String.length acc - commaCount) mod 3 =? 0)%nat in
            let acc2 := String (digit_char (number mod 10))
                          (if sep then String "," acc else acc) in
            if (number / 10 =? 0)%Z then acc2
            else groupLoop (S fuel) (number / 10) acc2
                   (if sep then S commaCount else commaCount)).
    cbv zeta. destruct (number / 10 =? 0)%Z; [reflexivity|apply IH].
Qed.

Lemma groupedDigits_chars (number : Z) :
  string_forall digit_or_comma (groupedDigits number) = true.
Proof. now apply groupLoop_chars. Qed.

Lemma groupedDigits_not_empty (number : Z) :
  StdString.empty (groupedDigits number) = false.
Proof. apply groupLoop_not_empty. Qed.

Lemma groupedDigits_clean (number : Z) :
  removePreviousFormats (groupedDigits number) = groupedDigits number.
Proof.
  apply removePreviousFormats_no_ESC.
  eapply string_forall_impl; [apply digit_or_comma_not_ESC|apply groupedDigits_chars].
Qed.

(* ------------------------------------------------------------------ *)
(** ** The gradient outside its range *)

Lemma formatUnsignedInteger_red (number : Z) :
  formatUnsignedInteger number "red" "blink" "bold" "" "" ""
  = Returned (too_low_text number).
Proof.
  unfold formatUnsignedInteger, formatString, formatTokens.
  rewrite groupedDigits_not_empty.
  change (classifyAll fmt_init ["red"; "blink"; "bold"; ""; ""; ""])
    with (Returned {| color := csi "31m"; formats := csi "5m" ++ csi "1m";
                      activeStyles := [true; false; false; false; true] |}).
  cbn [bind color formats StdString.empty negb orb].
  now rewrite groupedDigits_clean.
Qed.

Lemma formatUnsignedInteger_green (number : Z) :
  formatUnsignedInteger number "green" "blink" "bold" "" "" ""
  = Returned (too_high_text number).
Proof.
  unfold formatUnsignedInteger, formatString, formatTokens.
  rewrite groupedDigits_not_empty.
  change (classifyAll fmt_init ["green"; "blink"; "bold"; ""; ""; ""])
    with (Returned {| color := csi "32m"; formats := csi "5m" ++ csi "1m";
                      activeStyles := [true; false; false; false; true] |}).
  cbn [bind color formats StdString.empty negb orb].
  now rewrite groupedDigits_clean.
Qed.

Lemma tooHigh_not_tooLow (number minimum maximum : Z) :
  tooHigh number minimum maximum = true -> tooLow number minimum maximum = false.
Proof. unfold tooHigh, tooLow. lia. Qed.

Lemma out_of_range_guards (number minimum maximum : Z) :
  ~ in_range number minimum maximum ->
  tooLow number minimum maximum = true \/ tooHigh number minimum maximum = true.
Proof. unfold in_range, tooLow, tooHigh. lia. Qed.

Lemma in_range_guards (number minimum maximum : Z) :
  in_range number minimum maximum ->
  tooLow number minimum maximum = false /\ tooHigh number minimum maximum = false.
Proof. unfold in_range, tooLow, tooHigh. lia. Qed.

Lemma gradient_too_low (number minimum maximum : Z) (f1 f2 f3 f4 f5 : string) :
  hasColor [f1; f2; f3; f4; f5] = false ->
  tooLow number minimum maximum = true ->
  formatGradientUnsignedInteger number minimum maximum f1 f2 f3 f4 f5
  = Returned (too_low_text number).
Proof.
  intros Hc Hl. unfold formatGradientUnsignedInteger.
  rewrite Hc, Hl. apply formatUnsignedInteger_red.
Qed.

Lemma gradient_too_high (number minimum maximum : Z) (f1 f2 f3 f4 f5 : string) :
  hasColor [f1; f2; f3; f4; f5] = false ->
  tooHigh number minimum maximum = true ->
  formatGradientUnsignedInteger number minimum maximum f1 f2 f3 f4 f5
  = Returned (too_high_text number).
Proof.
  intros Hc Hh. unfold formatGradientUnsignedInteger.
  rewrite Hc, (tooHigh_not_tooLow _ _ _ Hh), Hh. apply formatUnsignedInteger_green.
Qed.

(* ------------------------------------------------------------------ *)
(** ** Colour names *)

Lemma color_name_is_color (token : string) :
  In token (map fst _colors) ->
  StdString.empty token = false /\ is_color token = true.
Proof.
  cbn [map fst _colors In].
  intros H; repeat (destruct H as [<-|H]; [split; reflexivity|]); destruct H.
Qed.

Lemma hasColor_of_name (token : string) (parameters : list string) :
  In token parameters -> In token (map fst _colors) -> hasColor parameters = true.
Proof.
  intros Hin Hname. unfold hasColor. apply existsb_exists.
  exists token. split; [assumption|].
  destruct (color_name_is_color token Hname) as [-> ->]. reflexivity.
Qed.

(* ------------------------------------------------------------------ *)
(** ** Claims about the empty payload, the bare payload and the gradient's guards *)

(** C9. With an empty payload text, [formatString] returns the empty string
    for every content of its six token slots (and [formatTokens] for every
    list of tokens), whether they are valid, unknown, duplicated or
    conflicting: no error is raised. *)
Theorem C9_empty_payload :
  (forall parameters, formatTokens "" parameters = Returned "")
  /\ (forall f1 f2 f3 f4 f5 f6, formatString "" f1 f2 f3 f4 f5 f6 = Returned "").
Proof. split; reflexivity. Qed.

(** C1, as stated, fails: with no token, [formatString "hello"] does not
    return ["hello"]; the reset sequence follows the text. *)
Lemma C1_counterexample :
  formatString "hello" "" "" "" "" "" "" = Returned ("hello" ++ RESET)
  /\ formatString "hello" "" "" "" "" "" "" <> Returned "hello".
Proof. split; [reflexivity|discriminate]. Qed.

(** C1, amended. For every non-empty payload text, when all six token slots
    are empty, [formatString] returns the payload text as it is, its escape
    sequences untouched, followed by the reset sequence. *)
Theorem C1_no_tokens (text : string) :
  text <> "" ->
  formatString text "" "" "" "" "" "" = Returned (text ++ RESET).
Proof.
  intros Hne. unfold formatString, formatTokens.
  destruct text as [|c text]; [contradiction|reflexivity].
Qed.

Lemma C1_no_tokens_witness :
  formatString (csi "31m" ++ "hello") "" "" "" "" "" ""
  = Returned ((csi "31m" ++ "hello") ++ RESET).
Proof. apply C1_no_tokens. discriminate. Defined.

(** C7. Whatever the number and the bounds, in range or out of range,
    [formatGradientUnsignedInteger] throws as soon as one of its five
    arguments is a name of the colour table. *)
Theorem C7_gradient_rejects_colors
  (number minimum maximum : Z) (f1 f2 f3 f4 f5 token : string) :
  In token [f1; f2; f3; f4; f5] ->
  In token (map fst _colors) ->
  formatGradientUnsignedInteger number minimum maximum f1 f2 f3 f4 f5
  = Thrown msg_gradient_color.
Proof.
  intros Hin Hname. unfold formatGradientUnsignedInteger.
  now rewrite (hasColor_of_name token _ Hin Hname).
Qed.

Lemma C7_gradient_rejects_colors_witness :
  formatGradientUnsignedInteger 150 0 100 "bold" "" "cyan" "" ""
  = Thrown msg_gradient_color.
Proof.
  apply (C7_gradient_rejects_colors 150 0 100 "bold" "" "cyan" "" "" "cyan");
    cbn [In map fst _colors]; tauto.
Defined.

(** The ratio when the bounds are equal and the number is on them. *)
Lemma gradientRatio_point (number : Z) :
  gradientRatio number number number = 1%float.
Proof.
  unfold gradientRatio, usub.
  rewrite Z.gtb_ltb, Z.ltb_irrefl, Z.sub_diag. reflexivity.
Qed.

(** C6. When no argument names a colour:
    - a number below the starting bound in the direction of the gradient
      (under [minimum] when [minimum < maximum], over [minimum] when
      [minimum > maximum]), or different from equal bounds, is rendered in
      red, blinking and bold;
    - a number beyond the final bound in the direction of the gradient is
      rendered in green, blinking and bold;
    - a number on equal bounds gets the ratio 1.0, hence the cube index 46
      of pure green, and no error of its own. *)
Theorem C6_gradient_boundaries
  (number minimum maximum : Z) (f1 f2 f3 f4 f5 : string) :
  hasColor [f1; f2; f3; f4; f5] = false ->
  ((number < minimum < maximum \/ maximum < minimum < number
    \/ (minimum = maximum /\ number <> maximum))%Z ->
   formatGradientUnsignedInteger number minimum maximum f1 f2 f3 f4 f5
   = Returned (csi "31m" ++ csi "5m" ++ csi "1m" ++ groupedDigits number ++ RESET))
  /\ ((minimum < maximum < number \/ number < maximum < minimum)%Z ->
      formatGradientUnsignedInteger number minimum maximum f1 f2 f3 f4 f5
      = Returned (csi "32m" ++ csi "5m" ++ csi "1m" ++ groupedDigits number ++ RESET))
  /\ (number = minimum /\ minimum = maximum ->
      gradientRatio number minimum maximum = 1%float
      /\ formatGradientUnsignedInteger number minimum maximum f1 f2 f3 f4 f5
         = (body <- formatUnsignedInteger number f1 f2 f3 f4 f5 "" ;;
            Returned (csi "38;5;46m" ++ body ++ RESET))).
Proof.
  intros Hc. split; [|split].
  - intros H. apply gradient_too_low; [assumption|]. unfold tooLow. lia.
  - intros H. apply gradient_too_high; [assumption|]. unfold tooHigh. lia.
  - intros [-> ->]. split; [apply gradientRatio_point|].
    unfold formatGradientUnsignedInteger. rewrite Hc.
    replace (tooLow maximum maximum maximum) with false by (unfold tooLow; lia).
    replace (tooHigh maximum maximum maximum) with false by (unfold tooHigh; lia).
    unfold gradientIndex. rewrite gradientRatio_point. reflexivity.
Qed.

Lemma C6_gradient_boundaries_witness :
  formatGradientUnsignedInteger 3 10 2000 "underline" "" "" "" ""
  = Returned (csi "31m" ++ csi "5m" ++ csi "1m" ++ "3" ++ RESET)
  /\ formatGradientUnsignedInteger 1500 1000 1000 "underline" "" "" "" ""
     = Returned (csi "31m" ++ csi "5m" ++ csi "1m" ++ "1,500" ++ RESET)
  /\ formatGradientUnsignedInteger 1500 1000 10 "underline" "" "" "" ""
     = Returned (csi "31m" ++ csi "5m" ++ csi "1m" ++ "1,500" ++ RESET)
  /\ formatGradientUnsignedInteger 150 0 100 "underline" "" "" "" ""
     = Returned (csi "32m" ++ csi "5m" ++ csi "1m" ++ "150" ++ RESET)
  /\ formatGradientUnsignedInteger 7 7 7 "underline" "" "" "" ""
     = Returned (csi "38;5;46m" ++ (csi "4m" ++ "7" ++ RESET) ++ RESET).
Proof.
  split; [|split; [|split; [|split]]].
  - apply (proj1 (C6_gradient_boundaries 3 10 2000 "underline" "" "" "" "" eq_refl)).
    lia.
  - apply (proj1 (C6_gradient_boundaries 1500 1000 1000 "underline" "" "" "" "" eq_refl)).
    lia.
  - apply (proj1 (C6_gradient_boundaries 1500 1000 10 "underline" "" "" "" "" eq_refl)).
    lia.
  - apply (proj1 (proj2 (C6_gradient_boundaries 150 0 100 "underline" "" "" "" "" eq_refl))).
    lia.
  - apply (proj2 (proj2 (C6_gradient_boundaries 7 7 7 "underline" "" "" "" "" eq_refl))).
    split; reflexivity.
Defined.

(** C10. For a number outside the range, and when no argument names a
    colour, the result of [formatGradientUnsignedInteger] does not depend
    on its five arguments: it is the result for five empty slots, a
    returned text, the fixed red or green blinking bold rendering, also
    for an argument that is no style name. *)
Theorem C10_out_of_range_ignores_styles
  (number minimum maximum : Z) (f1 f2 f3 f4 f5 : string) :
  hasColor [f1; f2; f3; f4; f5] = false ->
  ~ in_range number minimum maximum ->
  formatGradientUnsignedInteger number minimum maximum f1 f2 f3 f4 f5
  = formatGradientUnsignedInteger number minimum maximum "" "" "" "" ""
  /\ (formatGradientUnsignedInteger number minimum maximum f1 f2 f3 f4 f5
      = Returned (csi "31m" ++ csi "5m" ++ csi "1m" ++ groupedDigits number ++ RESET)
      \/ formatGradientUnsignedInteger number minimum maximum f1 f2 f3 f4 f5
         = Returned (csi "32m" ++ csi "5m" ++ csi "1m" ++ groupedDigits number ++ RESET)).
Proof.
  intros Hc Hout. destruct (out_of_range_guards _ _ _ Hout) as [H|H].
  - rewrite (gradient_too_low _ _ _ f1 f2 f3 f4 f5 Hc H).
    rewrite (gradient_too_low _ _ _ "" "" "" "" "" eq_refl H). auto.
  - rewrite (gradient_too_high _ _ _ f1 f2 f3 f4 f5 Hc H).
    rewrite (gradient_too_high _ _ _ "" "" "" "" "" eq_refl H). auto.
Qed.

Lemma C10_out_of_range_ignores_styles_witness :
  formatGradientUnsignedInteger 150 0 100 "underline" "no such style" "" "" ""
  = formatGradientUnsignedInteger 150 0 100 "" "" "" "" "".
Proof.
  apply (C10_out_of_range_ignores_styles 150 0 100 "underline" "no such style" "" "" "");
    [reflexivity|unfold in_range; lia].
Defined.

(* ------------------------------------------------------------------ *)
(** ** Token validation *)

(** Facts read off the two tables, row by row. *)
Ltac table_rows token finish :=
  repeat match goal with
         | |- context [String.eqb token ?name] =>
             destruct (String.eqb_spec token name) as [->|_];
             [intros [= <- <-]; finish|]
         end;
  try discriminate.

Lemma lookup_color_code (token : string) (j : nat) (code : string) :
  lookup token _colors = Some (j, code) ->
  StdString.empty token = false /\ StdString.empty code = false
  /\ lookup token _styles = None.
Proof.
  unfold lookup. cbn [lookup_from _colors].
  table_rows token ltac:(repeat split; reflexivity).
Qed.

Lemma lookup_style_name (token : string) (j : nat) (code : string) :
  lookup token _styles = Some (j, code) ->
  StdString.empty token = false /\ j < 5 /\ nth j style_names "" = token.
Proof.
  unfold lookup. cbn [lookup_from _styles].
  table_rows token ltac:(repeat split; (reflexivity || lia)).
Qed.

Lemma nth_mark (j k : nat) (flags : list bool) :
  j < length flags ->
  nth k (mark j flags) false = Nat.eqb k j || nth k flags false.
Proof.
  revert j k. induction flags as [|b flags IH]; intros j k Hj; [simpl in Hj; lia|].
  destruct j as [|j], k as [|k]; cbn [mark nth Nat.eqb orb]; try reflexivity.
  - simpl in Hj. rewrite IH by lia. reflexivity.
Qed.

Lemma length_mark (j : nat) (flags : list bool) :
  length (mark j flags) = length flags.
Proof.
  revert j. induction flags as [|b flags IH]; intros [|j]; simpl; auto.
Qed.

Lemma style_index_is_eqb (token other : string) (j : nat) (code : string) :
  lookup token _styles = Some (j, code) ->
  style_index_is j other = String.eqb token other.
Proof.
  intros Ht. unfold style_index_is.
  destruct (lookup_style_name _ _ _ Ht) as (_ & _ & Hname).
  destruct (String.eqb_spec token other) as [<-|Hne].
  - rewrite Ht. apply Nat.eqb_refl.
  - destruct (lookup other _styles) as [[k code']|] eqn:Ho; [|reflexivity].
    destruct (lookup_style_name _ _ _ Ho) as (_ & _ & Hname').
    destruct (Nat.eqb_spec k j) as [->|]; [congruence|reflexivity].
Qed.

Lemma fmt_inv_init : fmt_inv fmt_init [].
Proof.
  split; try reflexivity.
  intros j. do 5 (destruct j as [|j]; [reflexivity|]). now destruct j.
Qed.

Lemma existsb_snoc {A : Type} (f : A -> bool) (l : list A) (x : A) :
  existsb f (l ++ [x]) = existsb f l || f x.
Proof. rewrite existsb_app. simpl. now rewrite orb_false_r. Qed.

Lemma existsb_pointwise {A : Type} (f g : A -> bool) (l : list A) :
  (forall x, f x = g x) -> existsb f l = existsb g l.
Proof.
  intros Hfg. induction l as [|x l IH]; simpl; [reflexivity|].
  now rewrite Hfg, IH.
Qed.

Lemma classify_spec (st : fmt_state) (seen : list string) (token : string) :
  fmt_inv st seen ->
  if offends seen token
  then classify st token = Thrown (expected_what token)
  else exists st', classify st token = Returned st' /\ fmt_inv st' (seen ++ [token]).
Proof.
  intros [Hcol Hlen Hsty].
  unfold offends, expected_what, classify.
  destruct (StdString.empty token) eqn:Hempty.
  - destruct token; [|discriminate]. cbn [negb andb].
    exists st. split; [reflexivity|].
    split; [rewrite existsb_snoc, Hcol, orb_false_r; reflexivity|assumption|].
    intros j. now rewrite existsb_snoc, Hsty, orb_false_r.
  - cbn [negb andb].
    destruct (lookup token _colors) as [[j code]|] eqn:Hc.
    + assert (Hic : is_color token = true) by (unfold is_color; now rewrite Hc).
      destruct (lookup_color_code _ _ _ Hc) as (_ & Hcode & Hns).
      rewrite Hic, Hcol, negb_involutive.
      destruct (existsb is_color seen) eqn:Hseen; [reflexivity|].
      eexists. split; [reflexivity|].
      split; cbn [color formats activeStyles]; [|assumption|].
      * now rewrite existsb_snoc, Hseen, Hic.
      * intros k. rewrite existsb_snoc, Hsty.
        replace (style_index_is k token) with false
          by (unfold style_index_is; now rewrite Hns).
        now rewrite orb_false_r.
    + assert (Hic : is_color token = false) by (unfold is_color; now rewrite Hc).
      rewrite Hic.
      destruct (lookup token _styles) as [[j code]|] eqn:Hs.
      * assert (His : is_style token = true) by (unfold is_style; now rewrite Hs).
        destruct (lookup_style_name _ _ _ Hs) as (_ & Hj & _).
        rewrite His, Hsty.
        rewrite (existsb_pointwise _ _ seen
                   (fun u => style_index_is_eqb token u j code Hs)).
        destruct (existsb (String.eqb token) seen) eqn:Hseen; [reflexivity|].
        eexists. split; [reflexivity|].
        split; cbn [color formats activeStyles].
        -- now rewrite existsb_snoc, Hcol, Hic, orb_false_r.
        -- now rewrite length_mark.
        -- intros k. rewrite nth_mark by lia. rewrite existsb_snoc, Hsty.
           replace (style_index_is k token) with (Nat.eqb k j)
             by (unfold style_index_is; rewrite Hs; apply Nat.eqb_sym).
           apply orb_comm.
      * assert (His : is_style token = false) by (unfold is_style; now rewrite Hs).
        now rewrite His.
Qed.

Lemma classifyAll_spec (parameters : list string) :
  forall st seen, fmt_inv st seen ->
  match first_offence seen parameters with
  | Some token => classifyAll st parameters = Thrown (expected_what token)
  | None => exists st', classifyAll st parameters = Returned st'
  end.
Proof.
  induction parameters as [|token rest IH]; intros st seen Hinv; cbn [first_offence classifyAll].
  - eauto.
  - pose proof (classify_spec st seen token Hinv) as H.
    destruct (offends seen token).
    + now rewrite H.
    + destruct H as (st' & -> & Hinv'). cbn [bind]. now apply IH.
Qed.

(** Membership in a table, told by [lookup]. *)
Lemma lookup_from_None (token : string) (table : list (string * string)) :
  forall j, lookup_from j token table = None <-> ~ In token (map fst table).
Proof.
  induction table as [|[name code] rows IH]; intros j; cbn [lookup_from map fst In].
  - tauto.
  - destruct (String.eqb_spec token name) as [->|Hne].
    + split; [discriminate|tauto].
    + rewrite IH. intuition congruence.
Qed.

Lemma is_color_iff (token : string) :
  is_color token = true <-> In token color_names.
Proof.
  unfold is_color, lookup, color_names.
  pose proof (lookup_from_None token _colors 0) as H.
  destruct (lookup_from 0 token _colors).
  - split; [intros _|reflexivity].
    destruct (in_dec string_dec token (map fst _colors)) as [Hin|Hout]; [assumption|].
    apply H in Hout. discriminate.
  - split; [discriminate|]. intros Hin. now apply H in Hin.
Qed.

Lemma is_style_iff (token : string) :
  is_style token = true <-> In token style_names.
Proof.
  unfold is_style, lookup, style_names.
  pose proof (lookup_from_None token _styles 0) as H.
  destruct (lookup_from 0 token _styles).
  - split; [intros _|reflexivity].
    destruct (in_dec string_dec token (map fst _styles)) as [Hin|Hout]; [assumption|].
    apply H in Hout. discriminate.
  - split; [discriminate|]. intros Hin. now apply H in Hin.
Qed.

Lemma color_name_facts (token : string) :
  In token color_names -> token <> "" /\ ~ In token style_names.
Proof.
  cbn. intros H.
  repeat (destruct H as [<-|H]; [split; [discriminate|intuition discriminate]|]).
  destruct H.
Qed.

Lemma style_name_facts (token : string) :
  In token style_names -> token <> "".
Proof.
  cbn. intros H.
  repeat (destruct H as [<-|H]; [discriminate|]). destruct H.
Qed.

Lemma is_color_false_iff (token : string) :
  is_color token = false <-> ~ In token color_names.
Proof. rewrite <- is_color_iff. now destruct (is_color token). Qed.

Lemma is_style_false_iff (token : string) :
  is_style token = false <-> ~ In token style_names.
Proof. rewrite <- is_style_iff. now destruct (is_style token). Qed.

Lemma empty_false_iff (s : string) : StdString.empty s = false <-> s <> "".
Proof. destruct s; simpl; split; congruence. Qed.

Lemma existsb_eqb_In (token : string) (l : list string) :
  existsb (String.eqb token) l = true <-> In token l.
Proof.
  rewrite existsb_exists. split.
  - intros (u & Hin & Heq). apply String.eqb_eq in Heq. now subst.
  - intros Hin. exists token. split; [assumption|apply String.eqb_refl].
Qed.

Lemma offends_iff (seen : list string) (token : string) :
  offends seen token = true <->
  (In token color_names /\ exists c, In c seen /\ In c color_names)
  \/ (In token style_names /\ In token seen)
  \/ (token <> "" /\ ~ In token color_names /\ ~ In token style_names).
Proof.
  unfold offends. rewrite andb_true_iff, negb_true_iff, empty_false_iff.
  destruct (is_color token) eqn:Hc.
  - apply is_color_iff in Hc. destruct (color_name_facts _ Hc) as [Hne Hns].
    rewrite existsb_exists. setoid_rewrite is_color_iff. tauto.
  - apply is_color_false_iff in Hc.
    destruct (is_style token) eqn:Hs.
    + apply is_style_iff in Hs. pose proof (style_name_facts _ Hs).
      rewrite existsb_eqb_In. tauto.
    + apply is_style_false_iff in Hs. tauto.
Qed.

Lemma first_offence_Some (parameters : list string) :
  forall seen token,
  first_offence seen parameters = Some token ->
  exists l1 l2, parameters = (l1 ++ token :: l2)%list /\ offends (seen ++ l1) token = true.
Proof.
  induction parameters as [|p rest IH]; intros seen token; cbn [first_offence].
  - discriminate.
  - destruct (offends seen p) eqn:Hp.
    + intros [= <-]. exists [], rest. now rewrite app_nil_r.
    + intros H. destruct (IH _ _ H) as (l1 & l2 & -> & Hoff).
      exists (p :: l1), l2. split; [reflexivity|].
      now rewrite <- app_assoc in Hoff.
Qed.

Lemma first_offence_None (parameters : list string) :
  forall seen,
  first_offence seen parameters = None ->
  forall l1 token l2,
    parameters = (l1 ++ token :: l2)%list -> offends (seen ++ l1) token = false.
Proof.
  induction parameters as [|p rest IH]; intros seen; cbn [first_offence].
  - intros _ [|? ?] ? ? ?; discriminate.
  - destruct (offends seen p) eqn:Hp; [discriminate|].
    intros H [|q l1] token l2 Heq; cbn in Heq; injection Heq as <- Heq.
    + now rewrite app_nil_r.
    + rewrite (app_assoc seen [p] l1 : (seen ++ p :: l1 = (seen ++ [p]) ++ l1)%list).
      now apply (IH _ H l1 token l2).
Qed.

Lemma refused_first_offence (parameters : list string) :
  second_color parameters \/ repeated_style parameters \/ unknown_token parameters ->
  first_offence [] parameters <> None.
Proof.
  intros H Hnone.
  pose proof (first_offence_None parameters [] Hnone) as Hall. cbn in Hall.
  destruct H as [(l1 & c1 & l2 & c2 & l3 & -> & H1 & H2)
                |[(t & Hs & l1 & l2 & l3 & ->)|(t & Hin & Hne & Hnc & Hns)]].
  - specialize (Hall (l1 ++ c1 :: l2)%list c2 l3).
    rewrite <- app_assoc in Hall. specialize (Hall eq_refl).
    assert (Hoff : offends (l1 ++ c1 :: l2)%list c2 = true).
    { apply offends_iff. left. split; [assumption|].
      exists c1. split; [apply in_elt|assumption]. }
    congruence.
  - specialize (Hall (l1 ++ t :: l2)%list t l3).
    rewrite <- app_assoc in Hall. specialize (Hall eq_refl).
    assert (Hoff : offends (l1 ++ t :: l2)%list t = true).
    { apply offends_iff. right. left. split; [assumption|apply in_elt]. }
    congruence.
  - destruct (in_split _ _ Hin) as (l1 & l2 & ->).
    specialize (Hall l1 t l2 eq_refl).
    assert (Hoff : offends l1 t = true) by (apply offends_iff; tauto).
    congruence.
Qed.

Lemma formatTokens_thrown (text : string) (parameters : list string) :
  text <> "" ->
  match first_offence [] parameters with
  | Some token => formatTokens text parameters = Thrown (expected_what token)
  | None => exists result, formatTokens text parameters = Returned result
  end.
Proof.
  intros Hne. unfold formatTokens.
  apply empty_false_iff in Hne. rewrite Hne.
  pose proof (classifyAll_spec parameters fmt_init [] fmt_inv_init) as H.
  destruct (first_offence [] parameters).
  - now rewrite H.
  - destruct H as (st' & ->). cbn [bind]. eauto.
Qed.

(** The three messages tell the three cases apart, and the last two tell
    the token. *)
Lemma messages_distinct (t u : string) :
  msg_multiple_colors <> msg_duplicate_style t
  /\ msg_multiple_colors <> msg_unknown_format t
  /\ msg_duplicate_style t <> msg_unknown_format u.
Proof. repeat split; discriminate. Qed.

Lemma append_inj_l (p s t : string) : p ++ s = p ++ t -> s = t.
Proof. induction p as [|c p IH]; simpl; [auto|]. intros [= H]. auto. Qed.

Lemma msg_unknown_format_inj (t u : string) :
  msg_unknown_format t = msg_unknown_format u -> t = u.
Proof. apply append_inj_l. Qed.

Lemma expected_what_cases (seen : list string) (token : string) :
  offends seen token = true ->
  (expected_what token = msg_multiple_colors
   /\ In token color_names /\ exists c, In c seen /\ In c color_names)
  \/ (expected_what token = msg_duplicate_style token
      /\ In token style_names /\ In token seen)
  \/ (expected_what token = msg_unknown_format token
      /\ token <> "" /\ ~ In token color_names /\ ~ In token style_names).
Proof.
  intros H. apply offends_iff in H. unfold expected_what.
  destruct H as [[Hc Hseen]|[[Hs Hseen]|(Hne & Hnc & Hns)]].
  - left. now rewrite (proj2 (is_color_iff token) Hc).
  - right; left.
    assert (Hnc : ~ In token color_names)
      by (intros Hc; now destruct (color_name_facts _ Hc)).
    now rewrite (proj2 (is_color_false_iff token) Hnc), (proj2 (is_style_iff token) Hs).
  - right; right.
    now rewrite (proj2 (is_color_false_iff token) Hnc),
                (proj2 (is_style_false_iff token) Hns).
Qed.

Lemma formatTokens_refusal (text : string) (parameters : list string) :
  text <> "" ->
  ((exists what, formatTokens text parameters = Thrown what)
   <-> second_color parameters \/ repeated_style parameters \/ unknown_token parameters)
  /\ (forall what, formatTokens text parameters = Thrown what ->
        (what = msg_multiple_colors /\ second_color parameters)
        \/ (exists token, what = msg_duplicate_style token
                          /\ repeated_style_of token parameters)
        \/ (exists token, what = msg_unknown_format token
                          /\ unknown_token_of token parameters)).
Proof.
  intros Hne.
  pose proof (formatTokens_thrown text parameters Hne) as Hrun.
  assert (Hwhat : forall what, formatTokens text parameters = Thrown what ->
            (what = msg_multiple_colors /\ second_color parameters)
            \/ (exists token, what = msg_duplicate_style token
                              /\ repeated_style_of token parameters)
            \/ (exists token, what = msg_unknown_format token
                              /\ unknown_token_of token parameters)).
  { intros what Hthrown.
    destruct (first_offence [] parameters) as [token|] eqn:Hfirst.
    - rewrite Hrun in Hthrown. injection Hthrown as <-.
      destruct (first_offence_Some _ _ _ Hfirst) as (l1 & l2 & -> & Hoff).
      cbn [app] in Hoff.
      destruct (expected_what_cases _ _ Hoff)
        as [(-> & Hc & c & Hin & Hcc)|[(-> & Hs & Hin)|(-> & Hu)]].
      + left. split; [reflexivity|].
        destruct (in_split _ _ Hin) as (a & b & ->).
        exists a, c, b, token, l2. rewrite <- app_assoc. auto.
      + right; left. exists token. split; [reflexivity|]. split; [assumption|].
        destruct (in_split _ _ Hin) as (a & b & ->).
        exists a, b, l2. now rewrite <- app_assoc.
      + right; right. exists token. split; [reflexivity|].
        split; [apply in_elt|assumption].
    - destruct Hrun as (result & Hres). congruence. }
  split; [split|exact Hwhat].
  - intros (what & Hthrown).
    destruct (Hwhat what Hthrown) as [[_ H]|[(t & _ & H)|(t & _ & H)]].
    + now left.
    + right; left. now exists t.
    + right; right. now exists t.
  - intros Hrefused. apply refused_first_offence in Hrefused.
    destruct (first_offence [] parameters); [eauto|contradiction].
Qed.

(* ------------------------------------------------------------------ *)
(** ** The claim about the errors of [formatString] *)

(** C3, as stated, fails where it says that the error names the offending
    token in each case: the error for a second colour is one fixed message,
    the same for the second colour ["blue"] as for ["green"], and neither
    name occurs in it. *)
Lemma C3_counterexample :
  formatString "x" "red" "blue" "" "" "" "" = Thrown msg_multiple_colors
  /\ formatString "x" "red" "green" "" "" "" "" = Thrown msg_multiple_colors
  /\ StdString.find "blue" msg_multiple_colors = None
  /\ StdString.find "green" msg_multiple_colors = None.
Proof. repeat split. Qed.

(** C3, amended. For a non-empty payload text, [formatString] throws if and
    only if its six tokens hold a second name of the colour table, twice
    the same name of the style table, or a non-empty token that is a name of
    neither table.  The message is then the fixed message of the second
    colour, or the message of the repeated style with that style's name, or
    the message of the unknown token with that token; the three messages
    differ from each other, and the unknown-token message determines the
    token. *)
Theorem C3_invalid_format (text f1 f2 f3 f4 f5 f6 : string) :
  text <> "" ->
  let parameters := [f1; f2; f3; f4; f5; f6] in
  ((exists what, formatString text f1 f2 f3 f4 f5 f6 = Thrown what)
   <-> second_color parameters \/ repeated_style parameters \/ unknown_token parameters)
  /\ (forall what, formatString text f1 f2 f3 f4 f5 f6 = Thrown what ->
        (what = msg_multiple_colors /\ second_color parameters)
        \/ (exists token, what = msg_duplicate_style token
                          /\ repeated_style_of token parameters)
        \/ (exists token, what = msg_unknown_format token
                          /\ unknown_token_of token parameters))
  /\ (forall t u, msg_multiple_colors <> msg_duplicate_style t
                  /\ msg_multiple_colors <> msg_unknown_format t
                  /\ msg_duplicate_style t <> msg_unknown_format u
                  /\ (msg_unknown_format t = msg_unknown_format u -> t = u)).
Proof.
  intros Hne parameters.
  destruct (formatTokens_refusal text parameters Hne) as [Hiff Hwhat].
  split; [exact Hiff|split; [exact Hwhat|]].
  intros t u. destruct (messages_distinct t u) as (H1 & H2 & H3).
  repeat split; auto. apply msg_unknown_format_inj.
Qed.

Lemma C3_invalid_format_witness :
  (exists what, formatString "x" "bold" "red" "bold" "" "" "" = Thrown what)
  <-> second_color ["bold"; "red"; "bold"; ""; ""; ""]
      \/ repeated_style ["bold"; "red"; "bold"; ""; ""; ""]
      \/ unknown_token ["bold"; "red"; "bold"; ""; ""; ""].
Proof.
  apply (C3_invalid_format "x" "bold" "red" "bold" "" "" ""). discriminate.
Defined.

Example ex_duplicate_style :
  formatString "x" "bold" "bold" "" "" "" "" = Thrown (msg_duplicate_style "bold").
Proof. reflexivity. Qed.

Example ex_unknown_format :
  formatString "x" "bold" "pink" "red" "red" "" "" = Thrown (msg_unknown_format "pink").
Proof. reflexivity. Qed.

(* ------------------------------------------------------------------ *)
(** ** Stripping what the formatter wrote *)

Lemma append_assoc (s t u : string) : (s ++ t) ++ u = s ++ t ++ u.
Proof. induction s as [|a s IH]; cbn [append]; congruence. Qed.

Lemma append_nil_r (s : string) : s ++ "" = s.
Proof. induction s as [|a s IH]; cbn [append]; congruence. Qed.

Lemma length_append (s t : string) :
  String.length (s ++ t) = String.length s + String.length t.
Proof. induction s as [|a s IH]; cbn [append String.length]; lia. Qed.

Lemma find_char_bounds (c : ascii) (s : string) :
  forall pos e, StdString.find_char c pos s = Some e -> pos <= e < String.length s.
Proof.
  induction s as [|a s IH]; intros pos e; cbn [StdString.find_char String.length].
  - discriminate.
  - destruct pos as [|pos].
    + destruct (Ascii.eqb a c).
      * intros [= <-]. lia.
      * destruct (StdString.find_char c 0 s) as [e'|] eqn:He; [|discriminate].
        intros [= <-]. specialize (IH _ _ He). lia.
    + destruct (StdString.find_char c pos s) as [e'|] eqn:He; [|discriminate].
      intros [= <-]. specialize (IH _ _ He). lia.
Qed.

Lemma length_drop (n : nat) (s : string) :
  String.length (StdString.drop n s) = String.length s - n.
Proof.
  revert s. induction n as [|n IH]; intros [|a s]; cbn [StdString.drop String.length];
    try lia. apply IH.
Qed.

Lemma length_erase (pos len : nat) (s : string) :
  pos <= String.length s ->
  String.length (StdString.erase pos len s) = pos + (String.length s - pos - len).
Proof.
  revert s. induction pos as [|pos IH]; intros s Hpos.
  - destruct s; cbn [StdString.erase]; rewrite length_drop; cbn [String.length]; lia.
  - destruct s as [|a s]; cbn [String.length] in *; [lia|].
    cbn [StdString.erase String.length]. rewrite IH by lia. lia.
Qed.

(** The loop of [removePreviousFormats] needs no more fuel than the length
    of the string: more fuel does not change the result. *)
Lemma removeLoop_fuel (fuel1 : nat) :
  forall fuel2 s,
  String.length s <= fuel1 -> String.length s <= fuel2 ->
  removeLoop fuel1 s = removeLoop fuel2 s.
Proof.
  induction fuel1 as [|fuel1 IH]; intros fuel2 s H1 H2.
  - destruct s; [|cbn in H1; lia]. now destruct fuel2.
  - destruct fuel2 as [|fuel2].
    + destruct s; [reflexivity|cbn in H2; lia].
    + cbn [removeLoop].
      destruct (StdString.find (csi "") s) as [start|]; [|reflexivity].
      destruct (StdString.find_char "m" start s) as [e|] eqn:He; [|reflexivity].
      apply find_char_bounds in He.
      apply IH; rewrite length_erase by lia; lia.
Qed.

Lemma removePreviousFormats_fuel (fuel : nat) (s : string) :
  String.length s <= fuel -> removeLoop fuel s = removePreviousFormats s.
Proof. intros H. now apply removeLoop_fuel. Qed.

Lemma escapes_app (s t : string) : escapes s -> escapes t -> escapes (s ++ t).
Proof.
  intros Hs Ht. induction Hs as [|code rest Hcode _ IH]; [assumption|].
  rewrite append_assoc. now constructor.
Qed.

Lemma escapes_code (code : string) : In code table_codes -> escapes code.
Proof.
  intros H. rewrite <- (append_nil_r code).
  constructor; [assumption|constructor].
Qed.

Lemma lookup_from_code (token : string) (table : list (string * string)) :
  forall j k code, lookup_from j token table = Some (k, code) -> In code (map snd table).
Proof.
  induction table as [|[name c] rows IH]; intros j k code; cbn [lookup_from map snd In].
  - discriminate.
  - destruct (String.eqb token name).
    + intros [= _ <-]. now left.
    + intros H. right. eapply IH, H.
Qed.

Lemma classify_escapes (st st' : fmt_state) (token : string) :
  classify st token = Returned st' ->
  escapes (color st) /\ escapes (formats st) ->
  escapes (color st') /\ escapes (formats st').
Proof.
  unfold classify. intros H [Hc Hf].
  destruct (StdString.empty token); [injection H as <-; auto|].
  destruct (lookup token _colors) as [[j code]|] eqn:Hlc.
  - destruct (negb (StdString.empty (color st))); [discriminate|].
    injection H as <-. cbn [color formats]. split; [|assumption].
    apply escapes_code, in_or_app. left. eapply lookup_from_code, Hlc.
  - destruct (lookup token _styles) as [[j code]|] eqn:Hls; [|discriminate].
    destruct (nth j (activeStyles st) false); [discriminate|].
    injection H as <-. cbn [color formats]. split; [assumption|].
    apply escapes_app; [assumption|].
    apply escapes_code, in_or_app. right. eapply lookup_from_code, Hls.
Qed.

Lemma classifyAll_escapes (parameters : list string) :
  forall st st',
  classifyAll st parameters = Returned st' ->
  escapes (color st) /\ escapes (formats st) ->
  escapes (color st') /\ escapes (formats st').
Proof.
  induction parameters as [|token rest IH]; intros st st'; cbn [classifyAll].
  - intros [= <-]. auto.
  - destruct (classify st token) as [st1|what] eqn:H1; cbn [bind]; [|discriminate].
    intros Hrest Hst. eapply IH; [exact Hrest|]. eapply classify_escapes; eauto.
Qed.

(** One pass of the loop erases one escape sequence of the tables at the
    head of the string. *)
Lemma removeLoop_code (code rest : string) (fuel : nat) :
  In code table_codes ->
  removeLoop (S fuel) (code ++ rest) = removeLoop fuel rest.
Proof.
  cbn [table_codes _colors _styles map snd app In].
  intros H; repeat (destruct H as [<-|H]; [reflexivity|]); destruct H.
Qed.

Lemma code_length (code : string) : In code table_codes -> 0 < String.length code.
Proof.
  cbn [table_codes _colors _styles map snd app In].
  intros H; repeat (destruct H as [<-|H]; [cbn; lia|]); destruct H.
Qed.

Lemma removePreviousFormats_escapes (e rest : string) :
  escapes e -> removePreviousFormats (e ++ rest) = removePreviousFormats rest.
Proof.
  induction 1 as [|code e Hcode He IH]; [reflexivity|].
  rewrite append_assoc, <- IH.
  unfold removePreviousFormats at 1.
  pose proof (code_length code Hcode) as Hlen.
  rewrite length_append.
  destruct (String.length code) as [|n]; [lia|].
  cbn [plus]. rewrite removeLoop_code by assumption.
  apply removePreviousFormats_fuel. lia.
Qed.

Lemma find_csi_cons (c : ascii) (s : string) :
  StdString.find (csi "") (String c s) = None ->
  prefix (csi "") (String c s) = false /\ StdString.find (csi "") s = None.
Proof.
  cbn [StdString.find].
  destruct (prefix (csi "") (String c s)); [discriminate|].
  destruct (StdString.find (csi "") s); [discriminate|auto].
Qed.

Lemma prefix_nil (s : string) : prefix "" s = true.
Proof. now destruct s. Qed.

Lemma prefix_cons (a b : ascii) (p s : string) :
  prefix (String a p) (String b s) = if Ascii.eqb a b then prefix p s else false.
Proof.
  change (prefix (String a p) (String b s))
    with (if ascii_dec a b then prefix p s else false).
  destruct (ascii_dec a b) as [->|Hne].
  - now rewrite Ascii.eqb_refl.
  - now rewrite (proj2 (Ascii.eqb_neq a b) Hne).
Qed.

Lemma find_csi_before_csi (text body : string) :
  no_escape_start text ->
  StdString.find (csi "") (text ++ csi body) = Some (String.length text).
Proof.
  unfold no_escape_start.
  induction text as [|c text IH]; intros H.
  - unfold csi. cbn [append String.length StdString.find].
    now rewrite !prefix_cons, !Ascii.eqb_refl, prefix_nil.
  - destruct (find_csi_cons _ _ H) as [Hp Hrest].
    cbn [append String.length StdString.find].
    rewrite (IH Hrest). cbn [option_map].
    replace (prefix (csi "") (String c (text ++ csi body))) with false; [reflexivity|].
    symmetry. revert Hp. unfold csi. rewrite !prefix_cons.
    destruct (Ascii.eqb ESC c); [|reflexivity].
    destruct text as [|d text]; [reflexivity|].
    cbn [append]. rewrite !prefix_cons, !prefix_nil. auto.
Qed.

Lemma find_csi_before_reset (text : string) :
  no_escape_start text ->
  StdString.find (csi "") (text ++ RESET) = Some (String.length text).
Proof. apply find_csi_before_csi. Qed.

Lemma find_char_after (c : ascii) (text rest : string) :
  StdString.find_char c (String.length text) (text ++ rest)
  = option_map (Nat.add (String.length text)) (StdString.find_char c 0 rest).
Proof.
  induction text as [|a text IH]; cbn [append String.length StdString.find_char].
  - destruct (StdString.find_char c 0 rest); reflexivity.
  - rewrite IH. destruct (StdString.find_char c 0 rest); reflexivity.
Qed.

Lemma erase_after (text rest : string) (len : nat) :
  StdString.erase (String.length text) len (text ++ rest)
  = text ++ StdString.drop len rest.
Proof.
  induction text as [|a text IH]; cbn [append String.length StdString.erase].
  - now destruct rest.
  - now rewrite IH.
Qed.

Lemma removeLoop_S (fuel : nat) (s : string) :
  removeLoop (S fuel) s
  = match StdString.find (csi "") s with
    | None => s
    | Some start =>
        match StdString.find_char "m" start s with
        | Some end_ => removeLoop fuel (StdString.erase start (end_ - start + 1) s)
        | None => s
        end
    end.
Proof. reflexivity. Qed.

Lemma removePreviousFormats_reset (text : string) :
  no_escape_start text -> removePreviousFormats (text ++ RESET) = text.
Proof.
  intros H. unfold removePreviousFormats.
  rewrite length_append, Nat.add_comm.
  change (String.length RESET + String.length text) with (S (3 + String.length text)).
  rewrite removeLoop_S, (find_csi_before_reset text H), find_char_after.
  change (StdString.find_char "m" 0 RESET) with (Some 3). cbn [option_map].
  replace (String.length text + 3 - String.length text + 1) with 4 by lia.
  rewrite erase_after.
  change (StdString.drop 4 RESET) with "". rewrite append_nil_r.
  now apply removeLoop_no_csi.
Qed.

(** What [formatString] returns for a payload without escape start: the
    escape sequences of its tokens, the payload, the reset sequence. *)
Lemma formatTokens_shape (text : string) (parameters : list string) (out : string) :
  no_escape_start text ->
  formatTokens text parameters = Returned out ->
  (text = "" /\ out = "") \/ exists e, escapes e /\ out = e ++ text ++ RESET.
Proof.
  intros Hclean. unfold formatTokens.
  destruct text as [|c text]; [intros [= <-]; now left|].
  cbn [StdString.empty].
  destruct (classifyAll fmt_init parameters) as [st|what] eqn:Hst; [|discriminate].
  cbn [bind].
  assert (Htext' : (if negb (StdString.empty (color st))
                       || negb (StdString.empty (formats st))
                    then removePreviousFormats (String c text)
                    else String c text) = String c text).
  { destruct (_ || _); [|reflexivity]. now apply removeLoop_no_csi. }
  rewrite Htext'. intros [= <-].
  destruct (classifyAll_escapes _ _ _ Hst) as [Hc Hf]; [split; constructor|].
  right. exists (color st ++ formats st).
  split; [now apply escapes_app|]. now rewrite append_assoc.
Qed.

Lemma strip_formatTokens (text : string) (parameters : list string) (out : string) :
  no_escape_start text ->
  formatTokens text parameters = Returned out ->
  removePreviousFormats out = text.
Proof.
  intros Hclean Hout.
  destruct (formatTokens_shape _ _ _ Hclean Hout) as [[-> ->]|(e & He & ->)];
    [reflexivity|].
  rewrite (removePreviousFormats_escapes _ _ He).
  now apply removePreviousFormats_reset.
Qed.

(** *** Escape sequences in the middle of a text *)

Lemma find_char_skip (c : ascii) (p rest : string) :
  string_forall (fun a => negb (Ascii.eqb a c)) p = true ->
  StdString.find_char c 0 (p ++ String c rest) = Some (String.length p).
Proof.
  induction p as [|a p IH]; cbn [append string_forall StdString.find_char String.length].
  - now rewrite Ascii.eqb_refl.
  - rewrite andb_true_iff, negb_true_iff. intros [-> Hp]. now rewrite (IH Hp).
Qed.

Lemma drop_length_append (p rest : string) :
  StdString.drop (String.length p) (p ++ rest) = rest.
Proof. induction p as [|a p IH]; [now destruct rest|exact IH]. Qed.

(** One pass erases an escape sequence that follows a text without escape
    start. *)
Lemma removePreviousFormats_escape (text body rest : string) :
  no_escape_start text ->
  string_forall not_m body = true ->
  removePreviousFormats (text ++ csi (body ++ "m") ++ rest)
  = removePreviousFormats (text ++ rest).
Proof.
  intros Hclean Hbody.
  assert (Hcsi : csi (body ++ "m") ++ rest = csi (body ++ String "m" rest)).
  { unfold csi. cbn [append]. now rewrite append_assoc. }
  rewrite Hcsi. unfold removePreviousFormats at 1.
  rewrite length_append. cbn [csi String.length].
  rewrite <- !plus_n_Sm, removeLoop_S.
  fold (csi (body ++ String "m" rest)).
  rewrite (find_csi_before_csi text _ Hclean), find_char_after.
  change (csi (body ++ String "m" rest))
    with ((String ESC (String "[" body)) ++ String "m" rest).
  rewrite find_char_skip by (cbn [string_forall]; exact Hbody).
  cbn [option_map String.length].
  replace (String.length text + S (S (String.length body)) - String.length text + 1)
    with (String.length (String ESC (String "[" body) ++ "m")).
  2:{ rewrite length_append. cbn [String.length]. lia. }
  rewrite erase_after.
  replace (String ESC (String "[" body) ++ String "m" rest)
    with ((String ESC (String "[" body) ++ "m") ++ rest)
    by now rewrite append_assoc.
  rewrite drop_length_append.
  apply removePreviousFormats_fuel.
  rewrite !length_append. cbn [String.length]. lia.
Qed.

Lemma removePreviousFormats_escape_head (body rest : string) :
  string_forall not_m body = true ->
  removePreviousFormats (csi (body ++ "m") ++ rest) = removePreviousFormats rest.
Proof. exact (removePreviousFormats_escape "" body rest eq_refl). Qed.

Lemma decimalLoop_chars (fuel : nat) : forall number acc,
  string_forall digit_or_comma acc = true ->
  string_forall digit_or_comma (decimalLoop fuel number acc) = true.
Proof.
  induction fuel as [|fuel IH]; intros number acc Hacc; cbn [decimalLoop]; auto.
  assert (Hacc' : string_forall digit_or_comma
                    (String (digit_char (number mod 10)) acc) = true)
    by (cbn [string_forall]; now rewrite digit_char_ok).
  destruct (number / 10 =? 0)%Z; auto.
Qed.

Lemma decimal_not_m (n : Z) : string_forall not_m (decimal n) = true.
Proof.
  assert (H : forall c, digit_or_comma c = true -> not_m c = true).
  { intros c. unfold digit_or_comma, is_digit, not_m.
    destruct (Ascii.eqb_spec c "m") as [->|]; auto. }
  unfold decimal. destruct (n <? 0)%Z; cbn [string_forall].
  - apply (string_forall_impl _ _ _ H). now apply decimalLoop_chars.
  - apply (string_forall_impl _ _ _ H). now apply decimalLoop_chars.
Qed.

Lemma groupedDigits_no_escape_start (number : Z) :
  no_escape_start (groupedDigits number).
Proof.
  apply find_csi_no_ESC.
  eapply string_forall_impl; [apply digit_or_comma_not_ESC|apply groupedDigits_chars].
Qed.

Lemma strip_formatUnsignedInteger (number : Z) (f1 f2 f3 f4 f5 f6 out : string) :
  formatUnsignedInteger number f1 f2 f3 f4 f5 f6 = Returned out ->
  removePreviousFormats out = groupedDigits number.
Proof.
  unfold formatUnsignedInteger, formatString. intros Hout.
  eapply strip_formatTokens; [apply groupedDigits_no_escape_start|exact Hout].
Qed.

Lemma strip_formatGradient (number minimum maximum : Z) (f1 f2 f3 f4 f5 out : string) :
  formatGradientUnsignedInteger number minimum maximum f1 f2 f3 f4 f5 = Returned out ->
  removePreviousFormats out = groupedDigits number.
Proof.
  unfold formatGradientUnsignedInteger.
  destruct (hasColor _); [discriminate|].
  destruct (tooLow _ _ _); [apply strip_formatUnsignedInteger|].
  destruct (tooHigh _ _ _); [apply strip_formatUnsignedInteger|].
  destruct (formatUnsignedInteger number f1 f2 f3 f4 f5 "") as [body|] eqn:Hbody;
    [|discriminate].
  cbn [bind]. intros [= <-].
  change (removePreviousFormats
            (csi (("38;5;" ++ decimal (gradientIndex number minimum maximum)) ++ "m")
             ++ body ++ RESET) = groupedDigits number).
  rewrite removePreviousFormats_escape_head
    by (rewrite string_forall_app, decimal_not_m; reflexivity).
  unfold formatUnsignedInteger, formatString in Hbody.
  destruct (formatTokens_shape _ _ _ (groupedDigits_no_escape_start number) Hbody)
    as [[Hempty _]|(e & He & ->)].
  - pose proof (groupedDigits_not_empty number) as Hne.
    rewrite Hempty in Hne. discriminate.
  - rewrite append_assoc, (removePreviousFormats_escapes _ _ He), append_assoc.
    change (RESET ++ RESET) with (csi ("0" ++ "m") ++ RESET).
    rewrite (removePreviousFormats_escape _ "0" RESET
               (groupedDigits_no_escape_start number) eq_refl).
    apply removePreviousFormats_reset, groupedDigits_no_escape_start.
Qed.

(** *** Nothing that ends in ['m'] keeps an escape start *)

Lemma prefix_length (p s : string) :
  prefix p s = true -> String.length p <= String.length s.
Proof.
  revert s. induction p as [|a p IH]; intros s; [cbn; lia|].
  destruct s as [|b s]; [discriminate|].
  rewrite prefix_cons. destruct (Ascii.eqb a b); [|discriminate].
  intros H. apply IH in H. cbn [String.length]. lia.
Qed.

Lemma find_bound (pat s : string) :
  forall i, StdString.find pat s = Some i -> i + String.length pat <= String.length s.
Proof.
  induction s as [|a s IH]; intros i; cbn [StdString.find].
  - destruct (prefix pat "") eqn:Hp; [|discriminate].
    intros [= <-]. now apply prefix_length in Hp.
  - destruct (prefix pat (String a s)) eqn:Hp.
    + intros [= <-]. now apply prefix_length in Hp.
    + destruct (StdString.find pat s) as [k|]; [|discriminate].
      intros [= <-]. specialize (IH k eq_refl). cbn [String.length]. lia.
Qed.

Lemma find_char_last (c : ascii) (s0 : string) :
  forall pos, pos <= String.length s0 ->
  exists e, StdString.find_char c pos (s0 ++ String c "") = Some e
            /\ e <= String.length s0.
Proof.
  induction s0 as [|a s0 IH]; intros pos Hpos; cbn [append String.length] in *.
  - assert (pos = 0) as -> by lia. cbn [StdString.find_char].
    rewrite Ascii.eqb_refl. eauto.
  - cbn [StdString.find_char]. destruct pos as [|pos].
    + destruct (Ascii.eqb a c); [exists 0; split; [reflexivity|lia]|].
      destruct (IH 0) as (e & -> & He); [lia|].
      exists (S e). split; [reflexivity|lia].
    + destruct (IH pos) as (e & -> & He); [lia|].
      exists (S e). split; [reflexivity|lia].
Qed.

Lemma drop_append (len : nat) (s t : string) :
  len <= String.length s ->
  StdString.drop len (s ++ t) = StdString.drop len s ++ t.
Proof.
  revert s. induction len as [|len IH]; intros s Hlen.
  - now destruct s.
  - destruct s as [|a s]; cbn [String.length] in Hlen; [lia|].
    cbn [append StdString.drop]. apply IH. lia.
Qed.

Lemma drop_all (len : nat) (s : string) :
  String.length s <= len -> StdString.drop len s = "".
Proof.
  revert s. induction len as [|len IH]; intros [|a s] H; cbn [String.length] in H;
    try reflexivity; try lia.
  cbn [StdString.drop]. apply IH. lia.
Qed.

Lemma erase_append (start len : nat) (s t : string) :
  start + len <= String.length s ->
  StdString.erase start len (s ++ t) = StdString.erase start len s ++ t.
Proof.
  revert s. induction start as [|start IH]; intros s H.
  - destruct s as [|a s].
    + cbn [String.length] in H. assert (len = 0) as -> by lia. now destruct t.
    + cbn [StdString.erase]. now apply (drop_append len (String a s) t).
  - destruct s as [|a s]; cbn [String.length] in H; [lia|].
    cbn [append StdString.erase]. rewrite IH by lia. reflexivity.
Qed.

(** Erasing from the first escape start to the end of the string leaves no
    escape start. *)
Lemma find_csi_erase_tail (s : string) :
  forall start len,
  StdString.find (csi "") s = Some start ->
  String.length s <= start + len ->
  StdString.find (csi "") (StdString.erase start len s) = None.
Proof.
  induction s as [|a s IH]; intros start len; [discriminate|].
  cbn [StdString.find].
  destruct (prefix (csi "") (String a s)) eqn:Hp.
  - intros [= <-] Hlen. cbn [StdString.erase]. now rewrite drop_all.
  - destruct (StdString.find (csi "") s) as [k|] eqn:Hk; [|discriminate].
    intros [= <-] Hlen. cbn [String.length] in Hlen.
    cbn [StdString.erase StdString.find].
    rewrite (IH k len eq_refl) by lia. cbn [option_map].
    replace (prefix (csi "") (String a (StdString.erase k len s))) with false;
      [reflexivity|].
    symmetry. revert Hp. unfold csi. rewrite !prefix_cons.
    destruct (Ascii.eqb ESC a); [|reflexivity].
    destruct k as [|k].
    + cbn [StdString.erase]. rewrite drop_all by lia. reflexivity.
    + destruct s as [|b s]; [discriminate|].
      cbn [StdString.erase]. rewrite !prefix_cons, !prefix_nil. auto.
Qed.

Lemma removeLoop_final_m (fuel : nat) :
  forall s, String.length s <= fuel ->
  (exists s0, s = s0 ++ "m") \/ StdString.find (csi "") s = None ->
  StdString.find (csi "") (removeLoop fuel s) = None.
Proof.
  induction fuel as [|fuel IH]; intros s Hfuel H.
  - destruct s; [reflexivity|cbn in Hfuel; lia].
  - rewrite removeLoop_S.
    destruct (StdString.find (csi "") s) as [start|] eqn:Hstart; [|assumption].
    destruct H as [[s0 ->]|H]; [|discriminate].
    pose proof (find_bound _ _ _ Hstart) as Hb.
    rewrite length_append in Hb, Hfuel. cbn [String.length csi] in Hb, Hfuel.
    destruct (find_char_last "m" s0 start) as (e & He & Hle); [lia|].
    rewrite He. pose proof (find_char_bounds _ _ _ _ He) as [Hse _].
    apply IH.
    + rewrite length_erase; rewrite length_append; cbn [String.length]; lia.
    + destruct (Nat.eq_dec e (String.length s0)) as [->|Hne].
      * right. apply find_csi_erase_tail; [assumption|].
        rewrite length_append. cbn [String.length]. lia.
      * left. exists (StdString.erase start (e - start + 1) s0).
        apply erase_append. lia.
Qed.

Lemma removePreviousFormats_final_m (s0 : string) :
  no_escape_start (removePreviousFormats (s0 ++ "m")).
Proof. apply removeLoop_final_m; [lia|eauto]. Qed.

Lemma formatTokens_final_m (text : string) (parameters : list string) (out : string) :
  formatTokens text parameters = Returned out ->
  no_escape_start (removePreviousFormats out).
Proof.
  unfold formatTokens.
  destruct (StdString.empty text); [now intros [= <-]|].
  destruct (classifyAll fmt_init parameters) as [st|]; [|discriminate].
  cbn [bind]. intros [= <-].
  change RESET with (csi "0" ++ "m").
  rewrite <- !append_assoc. apply removePreviousFormats_final_m.
Qed.

(* ------------------------------------------------------------------ *)
(** ** The round trip *)

(** C2, as stated, fails for a payload that carries an escape sequence of
    its own: the formatter strips it, and stripping the output gives the
    bare text, not the payload.  It fails without tokens as well. *)
Lemma C2_counterexample :
  formatString (csi "31m" ++ "x") "bold" "" "" "" "" ""
  = Returned (csi "1m" ++ "x" ++ RESET)
  /\ removePreviousFormats (csi "1m" ++ "x" ++ RESET) = "x"
  /\ formatString (csi "31m" ++ "x") "" "" "" "" "" ""
     = Returned ((csi "31m" ++ "x") ++ RESET)
  /\ removePreviousFormats ((csi "31m" ++ "x") ++ RESET) = "x"
  /\ "x" <> csi "31m" ++ "x".
Proof. repeat split. discriminate. Qed.

(** C2, amended. When [formatString] accepts its tokens and returns, then
    stripping its output gives back the payload text exactly when the
    payload holds no start marker [ESC '['] of an escape sequence; so the
    round trip holds for every such payload and every accepted combination
    of tokens, and for no other payload.  For [formatUnsignedInteger] and
    [formatGradientUnsignedInteger], built on it, stripping the output
    always gives back the digit text of the number. *)
Theorem C2_round_trip :
  (forall text f1 f2 f3 f4 f5 f6 out,
     formatString text f1 f2 f3 f4 f5 f6 = Returned out ->
     (removePreviousFormats out = text <-> no_escape_start text))
  /\ (forall number f1 f2 f3 f4 f5 f6 out,
        formatUnsignedInteger number f1 f2 f3 f4 f5 f6 = Returned out ->
        removePreviousFormats out = groupedDigits number)
  /\ (forall number minimum maximum f1 f2 f3 f4 f5 out,
        formatGradientUnsignedInteger number minimum maximum f1 f2 f3 f4 f5
        = Returned out ->
        removePreviousFormats out = groupedDigits number).
Proof.
  split; [|split].
  - unfold formatString. intros text f1 f2 f3 f4 f5 f6 out Hout. split.
    + intros <-. eapply formatTokens_final_m, Hout.
    + intros Hclean. eapply strip_formatTokens; eassumption.
  - intros number f1 f2 f3 f4 f5 f6 out. apply strip_formatUnsignedInteger.
  - intros number minimum maximum f1 f2 f3 f4 f5 out. apply strip_formatGradient.
Qed.

Lemma C2_round_trip_witness :
  removePreviousFormats (csi "34m" ++ csi "4m" ++ csi "1m" ++ "a[m" ++ RESET) = "a[m"
  /\ removePreviousFormats (csi "4m" ++ "1,234" ++ RESET) = "1,234"
  /\ removePreviousFormats (csi "38;5;226m" ++ (csi "1m" ++ "50" ++ RESET) ++ RESET)
     = "50".
Proof.
  split; [|split].
  - apply (proj1 C2_round_trip "a[m" "underline" "" "blue" "bold" "" "").
    + reflexivity.
    + reflexivity.
  - apply (proj1 (proj2 C2_round_trip) 1234%Z "underline" "" "" "" "" "").
    reflexivity.
  - apply (proj2 (proj2 C2_round_trip) 50%Z 0%Z 100%Z "bold" "" "" "" "").
    reflexivity.
Defined.

(* ------------------------------------------------------------------ *)
(** ** The digit text of [formatUnsignedInteger] *)

(** From here on [lia] also reasons about division by a constant. *)
Ltac Zify.zify_post_hook ::= Z.to_euclidean_division_equations.

Lemma spec_group_thousands_empty (s : string) :
  StdString.empty (spec_group_thousands s) = StdString.empty s.
Proof. now destruct s. Qed.

Lemma empty_length (s : string) : StdString.empty s = (String.length s =? 0)%nat.
Proof. now destruct s. Qed.

(** The two loops run in step: [groupLoop] builds the grouping of what
    [decimalLoop] builds. *)
Lemma groupLoop_decimalLoop (fuel : nat) :
  forall number numeral commaCount,
  String.length (spec_group_thousands numeral) = String.length numeral + commaCount ->
  groupLoop fuel number (spec_group_thousands numeral) commaCount
  = spec_group_thousands (decimalLoop fuel number numeral).
Proof.
  induction fuel as [|fuel IH]; intros number numeral commaCount Hlen;
    cbn [groupLoop decimalLoop]; [reflexivity|].
  rewrite spec_group_thousands_empty, empty_length, Hlen.
  replace (String.length numeral + commaCount - commaCount)
    with (String.length numeral) by lia.
  set (sep := negb (String.length numeral =? 0)%nat
              && (String.length numeral mod 3 =? 0)%nat).
  assert (Hsep : sep = (0 <? String.length numeral)%nat
                       && (String.length numeral mod 3 =? 0)%nat).
  { unfold sep. f_equal. destruct (String.length numeral); reflexivity. }
  assert (Hacc : String (digit_char (number mod 10))
                   (if sep then String "," (spec_group_thousands numeral)
                    else spec_group_thousands numeral)
                 = spec_group_thousands (String (digit_char (number mod 10)) numeral)).
  { cbn [spec_group_thousands]. now rewrite <- Hsep. }
  rewrite Hacc.
  destruct (number / 10 =? 0)%Z; [reflexivity|].
  apply IH. rewrite <- Hacc. cbn [String.length].
  destruct sep; cbn [String.length]; lia.
Qed.

Lemma groupedDigits_spec (number : Z) :
  (0 <= number)%Z ->
  groupedDigits number = spec_group_thousands (decimal number).
Proof.
  intros Hpos. unfold groupedDigits, decimal.
  replace (number <? 0)%Z with false by lia.
  now apply (groupLoop_decimalLoop _ number "" 0).
Qed.

(** [decimalLoop] writes the numeral of its number in front of [acc]. *)
Lemma digit_char_value (number : Z) :
  is_digit (digit_char (number mod 10)) = true
  /\ digit_value (digit_char (number mod 10)) = (number mod 10)%Z.
Proof.
  assert (H : (0 <= number mod 10 < 10)%Z) by (apply Z.mod_pos_bound; lia).
  unfold digit_char, digit_value.
  assert (Hd : (Z.to_nat (number mod 10) < 10)%nat) by lia.
  rewrite <- (Z2Nat.id (number mod 10)) at 3 by lia.
  revert Hd. generalize (Z.to_nat (number mod 10)) as d. intros d Hd.
  do 10 (destruct d as [|d]; [split; reflexivity|]). lia.
Qed.

Lemma numeral_value_from_app (s t : string) (v : Z) :
  numeral_value_from v (s ++ t) = numeral_value_from (numeral_value_from v s) t.
Proof.
  revert v. induction s as [|c s IH]; intros v; cbn [append numeral_value_from]; auto.
Qed.

Lemma decimalLoop_numeral (fuel : nat) :
  forall number acc,
  (0 <= number < 2 ^ Z.of_nat fuel)%Z -> (0 < fuel)%nat ->
  exists s, decimalLoop fuel number acc = s ++ acc /\ numeral_of number s.
Proof.
  induction fuel as [|fuel IH]; intros number acc [Hn0 Hn] Hfuel; [lia|].
  cbn [decimalLoop].
  destruct (digit_char_value number) as [Hdig Hval].
  destruct (Z.eqb_spec (number / 10) 0) as [Hq|Hq].
  - exists (String (digit_char (number mod 10)) "").
    split; [reflexivity|].
    assert (Hsmall : (number mod 10 = number)%Z)
      by (clear - Hq Hn0; apply Z.mod_small; lia).
    split.
    + cbn [string_forall]. now rewrite Hdig.
    + unfold numeral_value. cbn [numeral_value_from]. rewrite Hval. lia.
    + intros Hc. split; [reflexivity|].
      rewrite <- Hsmall, <- Hval, Hc. reflexivity.
  - assert (Hq' : (1 <= number / 10)%Z) by (clear - Hq Hn0; lia).
    assert (Hpow : (2 ^ Z.of_nat (S fuel) = 2 * 2 ^ Z.of_nat fuel)%Z).
    { rewrite Nat2Z.inj_succ, Z.pow_succ_r; lia. }
    rewrite Hpow in Hn. clear Hpow.
    assert (Hlt : (number / 10 < 2 ^ Z.of_nat fuel)%Z).
    { revert Hn. generalize (2 ^ Z.of_nat fuel)%Z. intros p Hn. lia. }
    assert (Hf : (0 < fuel)%nat).
    { destruct fuel; [cbn in Hlt; lia|lia]. }
    destruct (IH (number / 10)%Z (String (digit_char (number mod 10)) acc))
      as (s & Hs & [Hds Hvs Hcs]); [split; [clear - Hn0; lia|assumption]|assumption|].
    exists (s ++ String (digit_char (number mod 10)) "").
    split; [rewrite Hs, append_assoc; reflexivity|].
    split.
    + rewrite string_forall_app, Hds. cbn [string_forall]. now rewrite Hdig.
    + unfold numeral_value in *. rewrite numeral_value_from_app, Hvs.
      cbn [numeral_value_from]. rewrite Hval. clear. lia.
    + destruct s as [|c rest]; [contradiction|].
      cbn [append]. intros Hc. destruct (Hcs Hc). lia.
Qed.

Lemma digit_fuel_enough (number : Z) :
  (0 <= number)%Z -> (number < 2 ^ Z.of_nat (digit_fuel number))%Z.
Proof.
  intros Hpos. unfold digit_fuel.
  rewrite Nat2Z.inj_succ, Z2Nat.id by apply Z.log2_nonneg.
  destruct (Z.eq_dec number 0) as [->|Hne]; [reflexivity|].
  apply Z.log2_spec. lia.
Qed.

Lemma decimal_numeral (number : Z) :
  (0 <= number)%Z -> numeral_of number (decimal number).
Proof.
  intros Hpos. unfold decimal. replace (number <? 0)%Z with false by lia.
  destruct (decimalLoop_numeral (digit_fuel number) number "") as (s & Hs & Hnum).
  - split; [assumption|now apply digit_fuel_enough].
  - unfold digit_fuel. lia.
  - now rewrite Hs, append_nil_r.
Qed.

(** Below 1000 the numeral has at most three digits. *)
Lemma decimalLoop_small (fuel : nat) (number : Z) :
  (0 <= number < 1000)%Z ->
  (String.length (decimalLoop fuel number "") <= 3)%nat.
Proof.
  intros Hn.
  destruct fuel as [|fuel]; cbn [decimalLoop]; [cbn; lia|].
  destruct (Z.eqb_spec (number / 10) 0); [cbn; lia|].
  destruct fuel as [|fuel]; cbn [decimalLoop]; [cbn; lia|].
  destruct (Z.eqb_spec (number / 10 / 10) 0); [cbn; lia|].
  destruct fuel as [|fuel]; cbn [decimalLoop]; [cbn; lia|].
  destruct (Z.eqb_spec (number / 10 / 10 / 10) 0) as [_|Hne]; [cbn; lia|].
  exfalso. apply Hne.
  rewrite !Z.div_div by lia. apply Z.div_small. lia.
Qed.

Lemma spec_group_thousands_short (s : string) :
  (String.length s <= 3)%nat -> spec_group_thousands s = s.
Proof.
  intros H.
  destruct s as [|a [|b [|c [|d s]]]]; try reflexivity.
  cbn [String.length] in H. lia.
Qed.

(** C8. For every unsigned integer, the text that [formatUnsignedInteger]
    hands to [formatString], with all six tokens, is the base-10 numeral of
    the number (digits only, of that value, no leading zero) with a comma
    after every digit that is followed by a positive multiple of three
    digits; below 1000 it is the bare numeral; for 1000000 it is
    ["1,000,000"]. *)
Theorem C8_thousands_separators (number : Z) :
  (0 <= number)%Z ->
  exists numeral,
    numeral_of number numeral
    /\ groupedDigits number = spec_group_thousands numeral
    /\ ((number < 1000)%Z -> groupedDigits number = numeral)
    /\ (forall f1 f2 f3 f4 f5 f6,
          formatUnsignedInteger number f1 f2 f3 f4 f5 f6
          = formatString (spec_group_thousands numeral) f1 f2 f3 f4 f5 f6)
    /\ groupedDigits 1000000 = "1,000,000".
Proof.
  intros Hpos. exists (decimal number).
  pose proof (groupedDigits_spec number Hpos) as Hspec.
  split; [now apply decimal_numeral|].
  split; [assumption|].
  split; [|split; [|reflexivity]].
  - intros Hsmall. rewrite Hspec. apply spec_group_thousands_short.
    unfold decimal. replace (number <? 0)%Z with false by lia.
    apply decimalLoop_small. lia.
  - intros f1 f2 f3 f4 f5 f6. unfold formatUnsignedInteger. now rewrite Hspec.
Qed.

Lemma C8_thousands_separators_witness :
  exists numeral,
    numeral_of 4294967295 numeral
    /\ groupedDigits 4294967295 = spec_group_thousands numeral
    /\ ((4294967295 < 1000)%Z -> groupedDigits 4294967295 = numeral)
    /\ (forall f1 f2 f3 f4 f5 f6,
          formatUnsignedInteger 4294967295 f1 f2 f3 f4 f5 f6
          = formatString (spec_group_thousands numeral) f1 f2 f3 f4 f5 f6)
    /\ groupedDigits 1000000 = "1,000,000".
Proof. apply (C8_thousands_separators 4294967295). lia. Defined.

Example ex_grouped_digits :
  groupedDigits 0 = "0" /\ groupedDigits 999 = "999" /\ groupedDigits 1000 = "1,000"
  /\ groupedDigits 4294967295 = "4,294,967,295"
  /\ spec_group_thousands "1234567" = "1,234,567".
Proof. repeat split. Qed.

(* ------------------------------------------------------------------ *)
(** ** The rainbow *)

Lemma length_assign {A : Type} (i : nat) (x : A) (a : list A) :
  length (assign i x a) = length a.
Proof.
  revert i. induction a as [|y a IH]; intros [|i]; cbn [assign length]; auto.
Qed.

Lemma firstn_S_assign {A : Type} (i : nat) (x : A) (a : list A) :
  i < length a -> firstn (S i) (assign i x a) = (firstn i a ++ [x])%list.
Proof.
  revert i. induction a as [|y a IH]; intros i Hi; cbn [length] in Hi; [lia|].
  destruct i as [|i]; [reflexivity|].
  cbn [assign]. rewrite !firstn_cons, IH by lia. reflexivity.
Qed.

Lemma firstn_S_nth {A : Type} (m : nat) (l : list A) (d : A) :
  m < length l -> firstn (S m) l = (firstn m l ++ [nth m l d])%list.
Proof.
  revert m. induction l as [|y l IH]; intros m Hm; cbn [length] in Hm; [lia|].
  destruct m as [|m]; [reflexivity|].
  rewrite !firstn_cons, (IH m) by lia. reflexivity.
Qed.

(** Taking the element at [k] out of the first [m + 1] elements and moving
    the last of them into its place leaves the other [m] elements. *)
Lemma take_and_fill {A : Type} (d : A) (l : list A) :
  forall k m, m < length l -> k <= m ->
  Permutation (nth k l d :: firstn m (assign k (nth m l d) l)) (firstn (S m) l).
Proof.
  induction l as [|y l IH]; intros k m Hm Hk; cbn [length] in Hm; [lia|].
  destruct k as [|k].
  - destruct m as [|m]; [reflexivity|].
    cbn [assign nth]. rewrite !firstn_cons. apply perm_skip.
    rewrite (firstn_S_nth m l d) by lia. apply Permutation_cons_append.
  - destruct m as [|m]; [lia|].
    cbn [assign nth]. rewrite !firstn_cons.
    rewrite perm_swap. apply perm_skip. apply IH; lia.
Qed.

Lemma colorize_paint (randomColors : list string) (text : string) :
  forall i,
  string_forall not_ESC text = true ->
  colorize randomColors false i text = spec_paint randomColors i text.
Proof.
  induction text as [|c text IH]; intros i; [reflexivity|].
  cbn [string_forall colorize spec_paint]. rewrite andb_true_iff. intros [Hc Htext].
  unfold not_ESC in Hc. rewrite negb_true_iff in Hc.
  rewrite Hc. cbn [andb]. now rewrite IH.
Qed.

Lemma paint_firstn (slots : list string) (text : string) :
  forall i, spec_paint (firstn 6 slots) i text = spec_paint slots i text.
Proof.
  induction text as [|c text IH]; intros i; [reflexivity|].
  cbn [spec_paint]. rewrite IH, nth_firstn.
  assert (H : i mod 6 < 6) by (apply Nat.mod_upper_bound; lia).
  apply Nat.ltb_lt in H. now rewrite H.
Qed.

(** Six consecutive positions go through the six slots. *)
Lemma window_slots (slots : list string) (k : nat) :
  length slots = 6 ->
  Permutation (map (fun i => nth (i mod 6) slots "") (seq k 6)) slots.
Proof.
  intros Hlen.
  destruct slots as [|a [|b [|c [|d [|e [|f [|? ?]]]]]]]; try discriminate.
  cbn [seq map].
  assert (Hk : k mod 6 < 6) by (apply Nat.mod_upper_bound; lia).
  assert (Hs : forall t, (t + k) mod 6 = (t + k mod 6) mod 6)
    by (intros t; now rewrite Nat.Div0.add_mod_idemp_r).
  change (S (S (S (S (S k))))) with (5 + k). change (S (S (S (S k)))) with (4 + k).
  change (S (S (S k))) with (3 + k). change (S (S k)) with (2 + k).
  change (S k) with (1 + k).
  rewrite !Hs. clear Hs.
  set (j := k mod 6) in *. clearbody j.
  destruct j as [|[|[|[|[|[|j]]]]]]; try lia;
    cbn [Nat.add Nat.modulo Nat.divmod fst snd Nat.sub nth].
  - reflexivity.
  - apply (Permutation_app_comm [b; c; d; e; f] [a]).
  - apply (Permutation_app_comm [c; d; e; f] [a; b]).
  - apply (Permutation_app_comm [d; e; f] [a; b; c]).
  - apply (Permutation_app_comm [e; f] [a; b; c; d]).
  - apply (Permutation_app_comm [f] [a; b; c; d; e]).
Qed.

Section RainbowProperties.

Variable RandState : Type.
Variable rand : RandState -> nat * RandState.

(** Whatever [std::rand()] returns, at every pass the colours already
    drawn and the colours still in the active part of [colors] are the
    palette. *)
Lemma shuffleLoop_permutation (todo : nat) :
  forall i g colors randomColors,
  todo + i = 6 -> length colors = 6 -> length randomColors = 8 ->
  Permutation (firstn i randomColors ++ firstn todo colors) palette ->
  Permutation (firstn 6 (fst (shuffleLoop RandState rand todo i g colors randomColors)))
              palette.
Proof.
  induction todo as [|todo IH]; intros i g colors randomColors Hi Hc Hr Hperm.
  - cbn [shuffleLoop fst]. assert (i = 6) as -> by lia.
    now rewrite app_nil_r in Hperm.
  - cbn [shuffleLoop]. destruct (rand g) as [r g'].
    assert (Himod : i mod 6 = i) by (apply Nat.mod_small; lia).
    rewrite Himod.
    replace (6 - i) with (S todo) by lia.
    replace (5 - i) with todo by lia.
    assert (Hidx : r mod S todo <= todo)
      by (pose proof (Nat.mod_upper_bound r (S todo)); lia).
    apply IH.
    + lia.
    + now rewrite length_assign.
    + now rewrite length_assign.
    + rewrite firstn_S_assign by lia. rewrite <- app_assoc. cbn [app].
      rewrite <- Hperm. apply Permutation_app_head.
      apply take_and_fill; lia.
Qed.

Lemma shuffle_permutation (g : RandState) :
  Permutation (firstn 6 (fst (shuffle RandState rand g))) palette.
Proof.
  unfold shuffle. apply shuffleLoop_permutation; try reflexivity.
Qed.

(** C5. Whatever the generator, when the scan of the arguments finds a
    text and the stripped text holds no escape character, [rainbow]
    returns the style prefix, the painted text and the reset sequence,
    where the six slots are a permutation of the palette (each of red,
    green, yellow, blue, magenta and cyan once), the character at
    position [i] is preceded by the colour of slot [i mod 6], and so any
    six consecutive positions get the six colours of the palette once
    each. *)
Theorem C5_rainbow_palette
  (g : RandState) (a1 a2 a3 a4 a5 text format : string) :
  scanArguments "" "" [a1; a2; a3; a4; a5] = Returned (text, format) ->
  text <> "" ->
  string_forall not_ESC (removePreviousFormats text) = true ->
  exists slots,
    Permutation slots palette
    /\ fst (rainbow RandState rand g a1 a2 a3 a4 a5)
       = Returned (format ++ spec_paint slots 0 (removePreviousFormats text) ++ RESET)
    /\ forall k,
         Permutation (map (fun i => nth (i mod 6) slots "") (seq k 6)) palette.
Proof.
  intros Hscan Hne Hclean.
  pose proof (shuffle_permutation g) as Hperm.
  exists (firstn 6 (fst (shuffle RandState rand g))).
  split; [assumption|]. split.
  - unfold rainbow. rewrite Hscan.
    apply empty_false_iff in Hne. rewrite Hne.
    destruct (shuffle RandState rand g) as [randomColors g']. cbn [fst].
    now rewrite colorize_paint, paint_firstn.
  - intros k. rewrite window_slots; [assumption|].
    apply Permutation_length in Hperm. exact Hperm.
Qed.

End RainbowProperties.

Lemma C5_rainbow_palette_witness :
  exists slots,
    Permutation slots palette
    /\ fst (rainbow nat counting_rand 0 "bold" "hello world" "" "" "")
       = Returned (csi "1m" ++ spec_paint slots 0 "hello world" ++ RESET)
    /\ forall k,
         Permutation (map (fun i => nth (i mod 6) slots "") (seq k 6)) palette.
Proof.
  apply (C5_rainbow_palette nat counting_rand 0 "bold" "hello world" "" "" ""
           "hello world" (csi "1m")).
  - reflexivity.
  - discriminate.
  - reflexivity.
Defined.

Example ex_rainbow :
  fst (rainbow nat counting_rand 0 "hello" "" "" "" "")
  = Returned (csi "34m" ++ "h" ++ csi "31m" ++ "e" ++ csi "32m" ++ "l"
              ++ csi "35m" ++ "l" ++ csi "36m" ++ "o" ++ RESET)
  /\ fst (rainbow nat counting_rand 0 "" "" "" "" "") = Returned rainbow_symbol
  /\ fst (rainbow nat counting_rand 0 "a" "b" "" "" "") = Thrown msg_too_many_texts.
Proof. repeat split. Qed.

(* ------------------------------------------------------------------ *)
(** ** The gradient inside its range *)

(** Comparisons of doubles with one half. *)
Lemma ltb_leb (x y : float) : (x <? y)%float = true -> (x <=? y)%float = true.
Proof.
  rewrite ltb_spec, leb_spec. unfold SFltb, SFleb.
  now destruct (SFcompare (Prim2SF x) (Prim2SF y)) as [[| |]|].
Qed.

Lemma leb_not_ltb_half (x : float) :
  (x <=? 0.5)%float = true -> (x <? 0.5)%float = false -> x = 0.5%float.
Proof.
  rewrite ltb_spec, leb_spec. unfold SFltb, SFleb.
  intros Hle Hlt. apply Prim2SF_inj.
  change (Prim2SF 0.5) with (S754_finite false 4503599627370496 (-53)) in *.
  destruct (Prim2SF x) as [s|s| |s m e]; cbn [SFcompare] in Hle, Hlt;
    try discriminate; try (destruct s; discriminate).
  destruct s; [discriminate|].
  destruct (Z.compare_spec e (-53)) as [He|He|He]; try discriminate.
  rewrite Pos.compare_cont_spec in Hle, Hlt. cbn [Pos.switch_Eq] in Hle, Hlt.
  destruct (Pos.compare_spec m 4503599627370496) as [Hm|Hm|Hm];
    try discriminate.
  now subst.
Qed.

Lemma spec_rgb_code (ratio : float) :
  spec_rgb ratio = (gradientRed ratio, gradientGreen ratio, gradientBlue).
Proof.
  unfold spec_rgb, gradientRed, gradientGreen, gradientBlue.
  destruct (ratio <? 0.5)%float eqn:Hlt.
  - now rewrite (ltb_leb _ _ Hlt).
  - destruct (ratio <=? 0.5)%float eqn:Hle; [|reflexivity].
    rewrite (leb_not_ltb_half ratio Hle Hlt). reflexivity.
Qed.

Lemma usub_exact (a b : Z) :
  is_uint a -> is_uint b -> (b <= a)%Z -> usub a b = (a - b)%Z.
Proof.
  unfold is_uint, usub, UINT_RANGE. intros Ha Hb Hle.
  apply Z.mod_small. lia.
Qed.

Lemma spec_ratio_code (number minimum maximum : Z) :
  is_uint number -> is_uint minimum -> is_uint maximum ->
  in_range number minimum maximum ->
  gradientRatio number minimum maximum = spec_ratio number minimum maximum.
Proof.
  intros Hn Hmin Hmax Hrange. unfold in_range in Hrange.
  unfold gradientRatio, spec_ratio.
  rewrite Z.gtb_ltb.
  destruct (Z.ltb_spec maximum minimum) as [Hrev|Hasc].
  - rewrite Z.min_r, Z.max_l by lia.
    rewrite !usub_exact by (assumption || lia).
    destruct (_ =? 0)%float; cbn [negb].
    + reflexivity.
    + destruct (_ <? 0)%float; reflexivity.
  - rewrite Z.min_l, Z.max_r by lia.
    rewrite !usub_exact by (assumption || lia).
    destruct (_ =? 0)%float; cbn [negb].
    + reflexivity.
    + destruct (_ <? 0)%float; reflexivity.
Qed.


Lemma gradientIndex_spec (number minimum maximum : Z) :
  is_uint number -> is_uint minimum -> is_uint maximum ->
  in_range number minimum maximum ->
  gradientIndex number minimum maximum
  = spec_cube_index (spec_rgb (spec_ratio number minimum maximum)).
Proof.
  intros Hn Hmin Hmax Hrange. unfold gradientIndex.
  rewrite (spec_ratio_code _ _ _ Hn Hmin Hmax Hrange), spec_rgb_code.
  unfold spec_cube_index, cubeIndex.
  generalize (gradientRed (spec_ratio number minimum maximum)).
  generalize (gradientGreen (spec_ratio number minimum maximum)).
  generalize gradientBlue. intros b g r. ring.
Qed.

(** C4. For unsigned numbers and bounds, a number within the bounds (in
    either order) and arguments none of which names a colour,
    [formatGradientUnsignedInteger] returns the colour escape
    [ESC[38;5;<index>m], the output of [formatUnsignedInteger] and the
    reset sequence, where the index is the description's: the ratio of the
    position over the span, clamped and inverted for descending bounds, then
    red held at 255 and green rising up to ratio 0.5, green held at 255 and
    red falling above it, blue 0, and the index [16 + 36 (r/51) + 6 (g/51)
    + b/51].  The segments run from red over yellow to green; the number 50
    gets the index 226 between 0 and 100 and between 100 and 0. *)
Theorem C4_gradient_color
  (number minimum maximum : Z) (f1 f2 f3 f4 f5 : string) :
  is_uint number -> is_uint minimum -> is_uint maximum ->
  hasColor [f1; f2; f3; f4; f5] = false ->
  in_range number minimum maximum ->
  formatGradientUnsignedInteger number minimum maximum f1 f2 f3 f4 f5
  = (body <- formatUnsignedInteger number f1 f2 f3 f4 f5 "" ;;
     Returned (csi ("38;5;"
                    ++ decimal (spec_cube_index
                                  (spec_rgb (spec_ratio number minimum maximum)))
                    ++ "m")
               ++ body ++ RESET))
  /\ spec_rgb 0 = (255, 0, 0)%Z
  /\ spec_rgb 0.5 = (255, 255, 0)%Z
  /\ spec_rgb 1 = (0, 255, 0)%Z
  /\ spec_cube_index (255, 255, 0)%Z = 226%Z
  /\ formatGradientUnsignedInteger 50 0 100 "" "" "" "" ""
     = Returned (csi "38;5;226m" ++ ("50" ++ RESET) ++ RESET)
  /\ formatGradientUnsignedInteger 50 100 0 "" "" "" "" ""
     = Returned (csi "38;5;226m" ++ ("50" ++ RESET) ++ RESET).
Proof.
  intros Hn Hmin Hmax Hc Hrange.
  split; [|repeat split].
  unfold formatGradientUnsignedInteger.
  destruct (in_range_guards _ _ _ Hrange) as [-> ->].
  now rewrite Hc, (gradientIndex_spec _ _ _ Hn Hmin Hmax Hrange).
Qed.

Lemma C4_gradient_color_witness :
  formatGradientUnsignedInteger 30 100 0 "bold" "" "" "" ""
  = Returned (csi "38;5;154m" ++ (csi "1m" ++ "30" ++ RESET) ++ RESET).
Proof.
  refine (proj1 (C4_gradient_color 30 100 0 "bold" "" "" "" "" _ _ _ _ _));
    unfold is_uint, UINT_RANGE, in_range; try reflexivity; lia.
Defined.

Example ex_gradient :
  gradientIndex 0 0 100 = 196%Z /\ gradientIndex 100 0 100 = 46%Z
  /\ gradientIndex 0 100 0 = 46%Z /\ gradientIndex 25 0 100 = 208%Z
  /\ gradientIndex 80 0 100 = 82%Z.
Proof. repeat split. Qed.

(* ------------------------------------------------------------------ *)
(** * Further properties of the code *)

(** ** [removePreviousFormats] *)

Lemma length_removeLoop (fuel : nat) :
  forall s, String.length (removeLoop fuel s) <= String.length s.
Proof.
  induction fuel as [|fuel IH]; intros s; [cbn; lia|].
  rewrite removeLoop_S.
  destruct (StdString.find (csi "") s) as [start|]; [|lia].
  destruct (StdString.find_char "m" start s) as [e|] eqn:He; [|lia].
  apply find_char_bounds in He.
  etransitivity; [apply IH|]. rewrite length_erase by lia. lia.
Qed.

Lemma removeLoop_settled (fuel : nat) :
  forall s, String.length s <= fuel -> settled (removeLoop fuel s).
Proof.
  induction fuel as [|fuel IH]; intros s Hfuel.
  - destruct s; [exact I|cbn in Hfuel; lia].
  - rewrite removeLoop_S.
    destruct (StdString.find (csi "") s) as [start|] eqn:Hstart.
    + destruct (StdString.find_char "m" start s) as [e|] eqn:He.
      * apply find_char_bounds in He. apply IH.
        rewrite length_erase by lia. lia.
      * unfold settled. now rewrite Hstart.
    + unfold settled. now rewrite Hstart.
Qed.

Lemma removeLoop_of_settled (fuel : nat) (s : string) :
  settled s -> removeLoop fuel s = s.
Proof.
  unfold settled. intros H. destruct fuel; [reflexivity|].
  rewrite removeLoop_S.
  destruct (StdString.find (csi "") s) as [start|]; [|reflexivity].
  now rewrite H.
Qed.

Lemma removeLoop_shorter (fuel : nat) (s : string) :
  ~ settled s -> String.length (removeLoop (S fuel) s) < String.length s.
Proof.
  unfold settled. intros H. rewrite removeLoop_S.
  destruct (StdString.find (csi "") s) as [start|]; [|now destruct H].
  destruct (StdString.find_char "m" start s) as [e|] eqn:He; [|now destruct H].
  apply find_char_bounds in He.
  eapply Nat.le_lt_trans; [apply length_removeLoop|].
  rewrite length_erase by lia. lia.
Qed.

(** X1. The result of [removePreviousFormats] holds no escape sequence that
    the function would erase (no [ESC '['], or no ['m'] from the first one
    on), so stripping twice is stripping once. *)
Theorem X1_strip_settles (s : string) :
  settled (removePreviousFormats s)
  /\ removePreviousFormats (removePreviousFormats s) = removePreviousFormats s.
Proof.
  assert (H : settled (removePreviousFormats s))
    by (apply removeLoop_settled; lia).
  split; [assumption|]. now apply removeLoop_of_settled.
Qed.

(** X2. [removePreviousFormats] never lengthens a string; it returns the
    string unchanged exactly when nothing is to erase, which includes a
    start marker that no ['m'] follows, and a strictly shorter string
    otherwise. *)
Theorem X2_strip_fixed_points (s : string) :
  String.length (removePreviousFormats s) <= String.length s
  /\ (removePreviousFormats s = s <-> settled s)
  /\ (~ settled s -> String.length (removePreviousFormats s) < String.length s).
Proof.
  split; [apply length_removeLoop|]. split; [split|].
  - intros H. rewrite <- H. apply removeLoop_settled. lia.
  - apply removeLoop_of_settled.
  - intros H. unfold removePreviousFormats.
    destruct s as [|c s]; [now destruct H|].
    now apply removeLoop_shorter.
Qed.

(** X3. Whatever stands between a start marker and the next ['m'] is erased
    with them, digits or not: after a text without start marker, the
    sequence [ESC '[' body 'm'] disappears for every [body] free of ['m']. *)
Theorem X3_strip_through_next_m (text body rest : string) :
  no_escape_start text ->
  string_forall not_m body = true ->
  removePreviousFormats (text ++ csi (body ++ "m") ++ rest)
  = removePreviousFormats (text ++ rest).
Proof. apply removePreviousFormats_escape. Qed.

Lemma X3_strip_through_next_m_witness :
  removePreviousFormats ("a" ++ csi ("2Jhello " ++ "m") ++ "om") = "aom".
Proof.
  rewrite (X3_strip_through_next_m "a" "2Jhello " "om"); reflexivity.
Defined.

(* ------------------------------------------------------------------ *)
(** ** [formatString] *)

Lemma empty_append (s t : string) :
  StdString.empty (s ++ t) = StdString.empty s && StdString.empty t.
Proof. now destruct s. Qed.

Lemma lookup_style_code (token : string) (j : nat) (code : string) :
  lookup token _styles = Some (j, code) ->
  StdString.empty code = false /\ lookup token _colors = None.
Proof.
  unfold lookup. cbn [lookup_from _styles].
  table_rows token ltac:(repeat split; reflexivity).
Qed.

(** What an accepted token adds to the locals of [formatString]. *)
Lemma classify_codes (st st' : fmt_state) (token : string) :
  classify st token = Returned st' ->
  color st' = color st ++ code_of _colors token
  /\ formats st' = formats st ++ code_of _styles token
  /\ StdString.empty (code_of _colors token ++ code_of _styles token)
     = StdString.empty token.
Proof.
  unfold classify, code_of.
  destruct (StdString.empty token) eqn:Hempty.
  - destruct token; [|discriminate]. intros [= <-].
    cbn. now rewrite !append_nil_r.
  - destruct (lookup token _colors) as [[j code]|] eqn:Hc.
    + destruct (lookup_color_code _ _ _ Hc) as (_ & Hcode & ->).
      destruct (StdString.empty (color st)) eqn:Hcol; [|discriminate].
      cbn [negb]. intros [= <-]. cbn [color formats].
      destruct (color st); [|discriminate].
      rewrite !append_nil_r. cbn [append]. rewrite Hcode. auto.
    + destruct (lookup token _styles) as [[j code]|] eqn:Hs; [|discriminate].
      destruct (lookup_style_code _ _ _ Hs) as (Hcode & _).
      destruct (nth j (activeStyles st) false); [discriminate|].
      intros [= <-]. cbn [color formats append].
      rewrite append_nil_r, Hcode. auto.
Qed.

Lemma classifyAll_codes (parameters : list string) :
  forall st st',
  classifyAll st parameters = Returned st' ->
  color st' = color st ++ codes_of _colors parameters
  /\ formats st' = formats st ++ codes_of _styles parameters
  /\ StdString.empty (codes_of _colors parameters ++ codes_of _styles parameters)
     = forallb StdString.empty parameters.
Proof.
  induction parameters as [|token rest IH]; intros st st'; cbn [classifyAll codes_of forallb].
  - intros [= <-]. now rewrite !append_nil_r.
  - destruct (classify st token) as [st1|] eqn:H1; cbn [bind]; [|discriminate].
    intros Hrest.
    destruct (classify_codes _ _ _ H1) as (Hc1 & Hf1 & He1).
    destruct (IH _ _ Hrest) as (Hc & Hf & He).
    rewrite Hc, Hf, Hc1, Hf1, !append_assoc. repeat split.
    rewrite empty_append in He, He1. rewrite <- He, <- He1, !empty_append.
    destruct (StdString.empty (code_of _colors token)),
             (StdString.empty (code_of _styles token)),
             (StdString.empty (codes_of _colors rest)),
             (StdString.empty (codes_of _styles rest)); reflexivity.
Qed.

(** The text is stripped exactly when some token is not empty. *)
Lemma accepted_strips (parameters : list string) (st : fmt_state) :
  classifyAll fmt_init parameters = Returned st ->
  negb (StdString.empty (color st)) || negb (StdString.empty (formats st))
  = existsb nonempty parameters.
Proof.
  intros Hst.
  destruct (classifyAll_codes _ _ _ Hst) as (Hc & Hf & He).
  cbn [fmt_init color formats append] in Hc, Hf.
  rewrite <- Hc, <- Hf in He.
  rewrite <- negb_andb, <- empty_append, He.
  clear. induction parameters as [|p l IH]; [reflexivity|].
  cbn [forallb existsb]. rewrite negb_andb, IH. reflexivity.
Qed.

(** X4. The layout of what [formatString] returns for a non-empty text: the
    escape sequence of the colour token, in whichever slot it stands, then
    the escape sequences of the style tokens in the order of their slots,
    then the text (stripped of its own escape sequences when some slot is
    not empty, untouched otherwise), then the reset sequence. *)
Theorem X4_format_layout (text f1 f2 f3 f4 f5 f6 out : string) :
  text <> "" ->
  formatString text f1 f2 f3 f4 f5 f6 = Returned out ->
  let parameters := [f1; f2; f3; f4; f5; f6] in
  out = codes_of _colors parameters ++ codes_of _styles parameters
        ++ (if existsb nonempty parameters then removePreviousFormats text else text)
        ++ RESET.
Proof.
  intros Hne Hout parameters. revert Hout.
  unfold formatString, formatTokens. fold parameters.
  apply empty_false_iff in Hne. rewrite Hne.
  destruct (classifyAll fmt_init parameters) as [st|] eqn:Hst; [|discriminate].
  cbn [bind]. intros [= <-].
  rewrite (accepted_strips _ _ Hst).
  destruct (classifyAll_codes _ _ _ Hst) as (Hc & Hf & _).
  cbn [fmt_init color formats append] in Hc, Hf.
  now rewrite <- Hc, <- Hf.
Qed.

Lemma X4_format_layout_witness :
  csi "34m" ++ (csi "1m" ++ csi "5m") ++ "x" ++ RESET
  = codes_of _colors ["bold"; ""; "blue"; ""; "blink"; ""]
    ++ codes_of _styles ["bold"; ""; "blue"; ""; "blink"; ""]
    ++ removePreviousFormats (csi "4m" ++ "x") ++ RESET.
Proof.
  apply (X4_format_layout (csi "4m" ++ "x") "bold" "" "blue" "" "blink" "");
    [discriminate|reflexivity].
Defined.

(** Empty slots leave the locals of [formatString] as they are. *)
Lemma classifyAll_filter (parameters : list string) :
  forall st, classifyAll st (filter nonempty parameters) = classifyAll st parameters.
Proof.
  induction parameters as [|token rest IH]; intros st; [reflexivity|].
  cbn [filter]. unfold nonempty at 1.
  destruct (StdString.empty token) eqn:Hempty; cbn [negb classifyAll].
  - unfold classify. rewrite Hempty. cbn [bind]. apply IH.
  - destruct (classify st token); cbn [bind]; [apply IH|reflexivity].
Qed.

Lemma formatTokens_filter (text : string) (parameters : list string) :
  formatTokens text (filter nonempty parameters) = formatTokens text parameters.
Proof.
  unfold formatTokens. now rewrite classifyAll_filter.
Qed.

(** X5. [formatString] skips empty slots wherever they stand: two calls
    whose non-empty tokens are the same, in the same order, give the same
    result, be it a text or an error. *)
Theorem X5_format_skips_empty_slots
  (text f1 f2 f3 f4 f5 f6 g1 g2 g3 g4 g5 g6 : string) :
  filter nonempty [f1; f2; f3; f4; f5; f6] = filter nonempty [g1; g2; g3; g4; g5; g6] ->
  formatString text f1 f2 f3 f4 f5 f6 = formatString text g1 g2 g3 g4 g5 g6.
Proof.
  intros H. unfold formatString.
  rewrite <- (formatTokens_filter text [f1; f2; f3; f4; f5; f6]), H.
  apply formatTokens_filter.
Qed.

Lemma X5_format_skips_empty_slots_witness :
  formatString "x" "" "bold" "" "" "red" "" = formatString "x" "bold" "red" "" "" "" "".
Proof.
  apply (X5_format_skips_empty_slots "x" "" "bold" "" "" "red" "" "bold" "red" "" "" "" "").
  reflexivity.
Defined.

Lemma formatTokens_thrown_iff (text : string) (parameters : list string) (what : string) :
  text <> "" ->
  formatTokens text parameters = Thrown what
  <-> option_map expected_what (first_offence [] parameters) = Some what.
Proof.
  intros Hne. pose proof (formatTokens_thrown text parameters Hne) as H.
  destruct (first_offence [] parameters) as [token|]; cbn [option_map].
  - rewrite H. split; intros [= ->]; reflexivity.
  - destruct H as (result & ->). split; discriminate.
Qed.

(** X6. The errors of [formatString] do not depend on the payload: for two
    non-empty texts the same tokens throw the same error or none; and so
    [formatUnsignedInteger] throws for a number exactly what [formatString]
    throws for a non-empty text. *)
Theorem X6_errors_ignore_payload
  (text1 text2 f1 f2 f3 f4 f5 f6 what : string) (number : Z) :
  text1 <> "" -> text2 <> "" ->
  (formatString text1 f1 f2 f3 f4 f5 f6 = Thrown what
   <-> formatString text2 f1 f2 f3 f4 f5 f6 = Thrown what)
  /\ (formatUnsignedInteger number f1 f2 f3 f4 f5 f6 = Thrown what
      <-> formatString text1 f1 f2 f3 f4 f5 f6 = Thrown what).
Proof.
  intros H1 H2. unfold formatUnsignedInteger, formatString.
  assert (Hn : groupedDigits number <> "")
    by (apply empty_false_iff, groupedDigits_not_empty).
  rewrite !formatTokens_thrown_iff by assumption. tauto.
Qed.

Lemma X6_errors_ignore_payload_witness :
  formatString "some text" "bold" "pink" "" "" "" "" = Thrown (msg_unknown_format "pink")
  <-> formatString "x" "bold" "pink" "" "" "" "" = Thrown (msg_unknown_format "pink").
Proof.
  apply (X6_errors_ignore_payload "some text" "x" "bold" "pink" "" "" "" ""
           (msg_unknown_format "pink") 0); discriminate.
Defined.

(** X7. Formatting a formatted text again does not nest escape sequences:
    when [out] is what [formatString] returned for a text without escape
    start, formatting [out] with at least one non-empty token gives what
    formatting the text itself gives, text or error. *)
Theorem X7_reformat
  (text f1 f2 f3 f4 f5 f6 out g1 g2 g3 g4 g5 g6 : string) :
  no_escape_start text ->
  formatString text f1 f2 f3 f4 f5 f6 = Returned out ->
  existsb nonempty [g1; g2; g3; g4; g5; g6] = true ->
  formatString out g1 g2 g3 g4 g5 g6 = formatString text g1 g2 g3 g4 g5 g6.
Proof.
  unfold formatString. intros Hclean Hout Hg.
  pose proof (strip_formatTokens _ _ _ Hclean Hout) as Hstrip.
  destruct (formatTokens_shape _ _ _ Hclean Hout) as [[-> ->]|(e & He & Hshape)];
    [reflexivity|].
  assert (Hne : StdString.empty out = false).
  { rewrite Hshape, !empty_append. cbn [StdString.empty RESET csi].
    now rewrite !andb_false_r. }
  destruct text as [|c text].
  - cbn in Hout. injection Hout as <-. discriminate.
  - unfold formatTokens. rewrite Hne. cbn [StdString.empty].
    destruct (classifyAll fmt_init [g1; g2; g3; g4; g5; g6]) as [st|] eqn:Hst;
      cbn [bind]; [|reflexivity].
    rewrite (accepted_strips _ _ Hst), Hg, Hstrip.
    now rewrite (removeLoop_no_csi _ _ Hclean
                 : removePreviousFormats (String c text) = String c text).
Qed.

Lemma X7_reformat_witness :
  formatString (csi "1m" ++ "x" ++ RESET) "red" "bold" "" "" "" ""
  = formatString "x" "red" "bold" "" "" "" "".
Proof.
  apply (X7_reformat "x" "bold" "" "" "" "" "" (csi "1m" ++ "x" ++ RESET)
           "red" "bold" "" "" "" ""); reflexivity.
Defined.

(* ------------------------------------------------------------------ *)
(** ** [formatUnsignedInteger] *)

Lemma remove_commas_group (s : string) :
  string_forall is_digit s = true ->
  remove_commas (spec_group_thousands s) = s.
Proof.
  induction s as [|d s IH]; [reflexivity|].
  cbn [string_forall spec_group_thousands]. rewrite andb_true_iff. intros [Hd Hs].
  assert (Hnc : Ascii.eqb d "," = false).
  { destruct (Ascii.eqb_spec d ",") as [->|]; [discriminate|reflexivity]. }
  cbn [remove_commas]. rewrite Hnc.
  destruct (_ && _); cbn [remove_commas Ascii.eqb Bool.eqb]; now rewrite IH.
Qed.

Lemma read_groupedDigits (number : Z) :
  (0 <= number)%Z ->
  numeral_value (remove_commas (groupedDigits number)) = number.
Proof.
  intros Hpos. destruct (decimal_numeral number Hpos) as [Hd Hv _].
  now rewrite (groupedDigits_spec number Hpos), remove_commas_group.
Qed.

(** X8. The digit text can be read back: without its commas it is a numeral
    whose value is the number, so two different numbers never get the same
    digit text. *)
Theorem X8_digit_text_reads_back (number other : Z) :
  (0 <= number)%Z -> (0 <= other)%Z ->
  numeral_value (remove_commas (groupedDigits number)) = number
  /\ (groupedDigits number = groupedDigits other -> number = other).
Proof.
  intros Hn Ho. split; [now apply read_groupedDigits|].
  intros H. rewrite <- (read_groupedDigits number Hn), H.
  now apply read_groupedDigits.
Qed.

Lemma X8_digit_text_reads_back_witness :
  numeral_value (remove_commas (groupedDigits 4294967295)) = 4294967295%Z.
Proof. apply (X8_digit_text_reads_back 4294967295 0); lia. Defined.

(* ------------------------------------------------------------------ *)
(** ** [formatGradientUnsignedInteger] *)

Lemma no_color_no_second_color (parameters : list string) :
  hasColor parameters = false -> ~ second_color parameters.
Proof.
  intros Hc (l1 & c1 & l2 & c2 & l3 & -> & H1 & _).
  assert (Hhas : hasColor (l1 ++ c1 :: l2 ++ c2 :: l3)%list = true).
  { apply (hasColor_of_name c1); [apply in_elt|exact H1]. }
  congruence.
Qed.

Lemma formatTokens_sixth_empty (text f1 f2 f3 f4 f5 : string) :
  formatString text f1 f2 f3 f4 f5 "" = formatTokens text [f1; f2; f3; f4; f5].
Proof.
  unfold formatString.
  transitivity (formatTokens text (filter nonempty ([f1; f2; f3; f4; f5] ++ [""])));
    [symmetry; apply formatTokens_filter|].
  rewrite filter_app. change (filter nonempty [""]) with (@nil string).
  rewrite app_nil_r. apply formatTokens_filter.
Qed.

Lemma bind_thrown {A B : Type} (o : outcome A) (k : A -> B) (what : string) :
  (x <- o ;; Returned (k x)) = Thrown what <-> o = Thrown what.
Proof.
  destruct o; cbn [bind]; split; intros H; try discriminate H;
    injection H as ->; reflexivity.
Qed.

(** X9. Within the range, and when no argument names a colour,
    [formatGradientUnsignedInteger] refuses its five arguments as
    [formatString] does and for nothing else: it throws exactly when they
    hold twice the same style name or a non-empty token that is no style
    name, with the message of that case, and never the message of a second
    colour. *)
Theorem X9_gradient_validates_in_range
  (number minimum maximum : Z) (f1 f2 f3 f4 f5 : string) :
  in_range number minimum maximum ->
  hasColor [f1; f2; f3; f4; f5] = false ->
  let parameters := [f1; f2; f3; f4; f5] in
  ((exists what,
      formatGradientUnsignedInteger number minimum maximum f1 f2 f3 f4 f5 = Thrown what)
   <-> repeated_style parameters \/ unknown_token parameters)
  /\ (forall what,
        formatGradientUnsignedInteger number minimum maximum f1 f2 f3 f4 f5
        = Thrown what ->
        (exists token, what = msg_duplicate_style token
                       /\ repeated_style_of token parameters)
        \/ (exists token, what = msg_unknown_format token
                          /\ unknown_token_of token parameters)).
Proof.
  intros Hrange Hc parameters.
  assert (Hrun : forall what,
            formatGradientUnsignedInteger number minimum maximum f1 f2 f3 f4 f5
            = Thrown what
            <-> formatTokens (groupedDigits number) parameters = Thrown what).
  { intros what. unfold formatGradientUnsignedInteger.
    destruct (in_range_guards _ _ _ Hrange) as [-> ->]. rewrite Hc.
    unfold formatUnsignedInteger. rewrite formatTokens_sixth_empty.
    apply bind_thrown. }
  assert (Hn : groupedDigits number <> "")
    by (apply empty_false_iff, groupedDigits_not_empty).
  destruct (formatTokens_refusal _ parameters Hn) as [Hiff Hwhat].
  pose proof (no_color_no_second_color _ Hc) as Hno.
  split.
  - split.
    + intros (what & H). apply Hrun in H.
      destruct (proj1 Hiff (ex_intro _ what H)) as [?|?]; [contradiction|assumption].
    + intros H. destruct (proj2 Hiff (or_intror H)) as (what & Hw).
      exists what. now apply Hrun.
  - intros what H. apply Hrun in H.
    destruct (Hwhat what H) as [[_ ?]|?]; [contradiction|assumption].
Qed.

Lemma X9_gradient_validates_in_range_witness :
  (exists what,
     formatGradientUnsignedInteger 50 0 100 "bold" "shiny" "" "" "" = Thrown what)
  <-> repeated_style ["bold"; "shiny"; ""; ""; ""]
      \/ unknown_token ["bold"; "shiny"; ""; ""; ""].
Proof.
  apply (X9_gradient_validates_in_range 50 0 100 "bold" "shiny" "" "" "");
    [unfold in_range; lia|reflexivity].
Defined.

Example ex_gradient_errors :
  formatGradientUnsignedInteger 50 0 100 "bold" "shiny" "" "" ""
  = Thrown (msg_unknown_format "shiny")
  /\ formatGradientUnsignedInteger 150 0 100 "bold" "shiny" "" "" ""
     = Returned (csi "32m" ++ csi "5m" ++ csi "1m" ++ "150" ++ RESET)
  /\ formatGradientUnsignedInteger 50 0 100 "bold" "" "bold" "" ""
     = Thrown (msg_duplicate_style "bold").
Proof. repeat split. Qed.

(* ------------------------------------------------------------------ *)
(** ** [rainbow] *)

Lemma scanArguments_before_gap (arguments : list string) :
  forall text format,
  scanArguments text format (before_gap arguments) = scanArguments text format arguments.
Proof.
  induction arguments as [|a rest IH]; intros text format; [reflexivity|].
  cbn [before_gap scanArguments].
  destruct (StdString.empty a) eqn:Ha; [reflexivity|].
  cbn [scanArguments]. rewrite Ha.
  destruct (lookup a _styles) as [[j code]|]; [apply IH|].
  destruct (StdString.empty text); [apply IH|reflexivity].
Qed.

Lemma before_gap_nonempty (arguments : list string) :
  forallb nonempty (before_gap arguments) = true.
Proof.
  induction arguments as [|a rest IH]; [reflexivity|].
  cbn [before_gap]. destruct (StdString.empty a) eqn:Ha; [reflexivity|].
  cbn [forallb]. unfold nonempty at 1. now rewrite Ha.
Qed.

(** The scan of slots that are all filled: the styles, repeated or not, go
    to the prefix in their order; one free text is kept, a second one is
    refused. *)
Lemma scanArguments_filled (arguments : list string) :
  forall text format,
  forallb nonempty arguments = true ->
  scanArguments text format arguments
  = match texts_of arguments with
    | [] => Returned (text, format ++ codes_of _styles arguments)
    | [t] => if StdString.empty text
             then Returned (t, format ++ codes_of _styles arguments)
             else Thrown msg_too_many_texts
    | _ :: _ :: _ => Thrown msg_too_many_texts
    end.
Proof.
  induction arguments as [|a rest IH]; intros text format.
  - intros _. cbn. now rewrite append_nil_r.
  - cbn [forallb]. rewrite andb_true_iff. intros [Ha Hrest].
    unfold nonempty in Ha. rewrite negb_true_iff in Ha.
    unfold texts_of. cbn [scanArguments filter codes_of]. fold (texts_of rest).
    rewrite Ha. unfold code_of.
    destruct (lookup a _styles) as [[j code]|] eqn:Hs.
    + replace (is_style a) with true by (unfold is_style; now rewrite Hs).
      cbn [negb].
      rewrite (IH text (format ++ code) Hrest), append_assoc.
      destruct (texts_of rest) as [|t [|t' ts]]; reflexivity.
    + replace (is_style a) with false by (unfold is_style; now rewrite Hs).
      cbn [negb append].
      destruct (StdString.empty text) eqn:Ht.
      * rewrite (IH a format Hrest), Ha.
        destruct (texts_of rest) as [|t [|t' ts]]; reflexivity.
      * destruct (texts_of rest) as [|t ts]; reflexivity.
Qed.

Lemma scanArguments_spec (arguments : list string) :
  scanArguments "" "" arguments
  = match texts_of (before_gap arguments) with
    | [] => Returned ("", codes_of _styles (before_gap arguments))
    | [t] => Returned (t, codes_of _styles (before_gap arguments))
    | _ :: _ :: _ => Thrown msg_too_many_texts
    end.
Proof.
  rewrite <- scanArguments_before_gap.
  rewrite (scanArguments_filled _ "" "" (before_gap_nonempty arguments)).
  destruct (texts_of (before_gap arguments)) as [|t [|t' ts]]; reflexivity.
Qed.

Lemma texts_of_before_gap_nonempty (arguments : list string) (t : string) :
  In t (texts_of (before_gap arguments)) -> StdString.empty t = false.
Proof.
  unfold texts_of. rewrite filter_In. intros [Hin _].
  pose proof (before_gap_nonempty arguments) as H.
  rewrite forallb_forall in H. specialize (H t Hin).
  unfold nonempty in H. now rewrite negb_true_iff in H.
Qed.

Section RainbowFurther.

Variable RandState : Type.
Variable rand : RandState -> nat * RandState.

Lemma shuffleLoop_draws (todo : nat) :
  forall i g colors randomColors,
  snd (shuffleLoop RandState rand todo i g colors randomColors)
  = after_draws rand todo g.
Proof.
  induction todo as [|todo IH]; intros i g colors randomColors; [reflexivity|].
  cbn [shuffleLoop after_draws]. destruct (rand g) as [r g']. cbn [snd]. apply IH.
Qed.

(** X10. [rainbow] reads its slots up to the first empty one only: two
    calls that agree on the slots before it give the same result and leave
    the generator in the same state, whatever the later slots hold. *)
Theorem X10_rainbow_stops_at_gap
  (g : RandState) (a1 a2 a3 a4 a5 b1 b2 b3 b4 b5 : string) :
  before_gap [a1; a2; a3; a4; a5] = before_gap [b1; b2; b3; b4; b5] ->
  rainbow RandState rand g a1 a2 a3 a4 a5 = rainbow RandState rand g b1 b2 b3 b4 b5.
Proof.
  intros H. unfold rainbow.
  rewrite <- (scanArguments_before_gap [a1; a2; a3; a4; a5]), H.
  now rewrite scanArguments_before_gap.
Qed.

(** The three outcomes of [rainbow]. *)
Lemma rainbow_outcomes (g : RandState) (a1 a2 a3 a4 a5 : string) :
  match texts_of (before_gap [a1; a2; a3; a4; a5]) with
  | [] => rainbow RandState rand g a1 a2 a3 a4 a5 = (Returned rainbow_symbol, g)
  | [text] =>
      rainbow RandState rand g a1 a2 a3 a4 a5
      = (Returned (codes_of _styles (before_gap [a1; a2; a3; a4; a5])
                   ++ colorize (fst (shuffle RandState rand g)) false 0
                        (removePreviousFormats text)
                   ++ RESET),
         after_draws rand 6 g)
  | _ :: _ :: _ =>
      rainbow RandState rand g a1 a2 a3 a4 a5 = (Thrown msg_too_many_texts, g)
  end.
Proof.
  unfold rainbow. rewrite scanArguments_spec.
  pose proof (texts_of_before_gap_nonempty [a1; a2; a3; a4; a5]) as Hne.
  destruct (texts_of (before_gap [a1; a2; a3; a4; a5])) as [|t [|t' ts]];
    try reflexivity.
  rewrite (Hne t (or_introl eq_refl)).
  pose proof (shuffleLoop_draws 6 0 g palette (repeat "" 8)) as Hd.
  unfold shuffle. destruct (shuffleLoop _ _ _ _ _ _ _) as [randomColors g'].
  cbn [fst snd] in *. now subst g'.
Qed.

(** X11. The outcomes of [rainbow], by the free texts (the arguments that
    are no style names) among the slots before the first empty one:
    without a free text the result is the rainbow symbol, whatever styles
    were given, and [std::rand()] is not called; with two free texts or
    more the call throws, and [std::rand()] is not called; with exactly
    one, the call returns the escape sequences of the style names in their
    order, repeated ones included, the coloured text and the reset
    sequence, and [std::rand()] has been called six times. *)
Theorem X11_rainbow_outcomes (g : RandState) (a1 a2 a3 a4 a5 : string) :
  match texts_of (before_gap [a1; a2; a3; a4; a5]) with
  | [] => rainbow RandState rand g a1 a2 a3 a4 a5 = (Returned rainbow_symbol, g)
  | [text] =>
      rainbow RandState rand g a1 a2 a3 a4 a5
      = (Returned (codes_of _styles (before_gap [a1; a2; a3; a4; a5])
                   ++ colorize (fst (shuffle RandState rand g)) false 0
                        (removePreviousFormats text)
                   ++ RESET),
         after_draws rand 6 g)
  | _ :: _ :: _ =>
      rainbow RandState rand g a1 a2 a3 a4 a5 = (Thrown msg_too_many_texts, g)
  end.
Proof. apply rainbow_outcomes. Qed.

End RainbowFurther.

Lemma X10_rainbow_stops_at_gap_witness :
  rainbow nat counting_rand 0 "bold" "" "x" "blink" "y"
  = rainbow nat counting_rand 0 "bold" "" "" "" "".
Proof.
  apply (X10_rainbow_stops_at_gap nat counting_rand 0
           "bold" "" "x" "blink" "y" "bold" "" "" "" "").
  reflexivity.
Defined.

Example ex_rainbow_edges :
  rainbow nat counting_rand 0 "bold" "blink" "" "more text" "" = (Returned rainbow_symbol, 0)
  /\ fst (rainbow nat counting_rand 0 "bold" "bold" "x" "" "")
     = Returned (csi "1m" ++ csi "1m" ++ csi "34m" ++ "x" ++ RESET)
  /\ rainbow nat counting_rand 0 "red" "x" "" "" "" = (Thrown msg_too_many_texts, 0)
  /\ snd (rainbow nat counting_rand 0 "x" "" "" "" "") = 6.
Proof. repeat split. Qed.

(** *** The painted text *)

Lemma prefix_append (p a b : string) :
  prefix p a = true -> prefix p (a ++ b) = true.
Proof.
  revert a. induction p as [|x p IH]; intros a; [intros _; apply prefix_nil|].
  destruct a as [|y a]; [discriminate|].
  cbn [append]. rewrite !prefix_cons.
  destruct (Ascii.eqb x y); [apply IH|discriminate].
Qed.

Lemma no_escape_start_app_l (a b : string) :
  no_escape_start (a ++ b) -> no_escape_start a.
Proof.
  unfold no_escape_start. induction a as [|c a IH]; [reflexivity|].
  cbn [append]. intros H. destruct (find_csi_cons _ _ H) as [Hp Hrest].
  cbn [StdString.find]. rewrite (IH Hrest).
  destruct (prefix (csi "") (String c a)) eqn:Hpa; [|reflexivity].
  apply (prefix_append _ _ b) in Hpa. cbn [append] in Hpa. congruence.
Qed.

(** Up to the first start marker the loop of [rainbow] paints every
    character, lone escape characters included. *)
Lemma colorize_clean (randomColors : list string) (clean rest : string) :
  forall i,
  no_escape_start clean ->
  (rest = "" \/ exists rest', rest = String ESC rest') ->
  colorize randomColors false i (clean ++ rest)
  = spec_paint randomColors i clean
    ++ colorize randomColors false (i + String.length clean) rest.
Proof.
  induction clean as [|c clean IH]; intros i Hclean Hrest.
  - cbn [append spec_paint String.length]. now rewrite Nat.add_0_r.
  - destruct (find_csi_cons _ _ Hclean) as [Hp Hclean'].
    cbn [append colorize spec_paint String.length].
    assert (Htest : Ascii.eqb c ESC
                    && match clean ++ rest with String "[" _ => true | _ => false end
                    = false).
    { revert Hp. unfold csi. rewrite prefix_cons, Ascii.eqb_sym.
      destruct (Ascii.eqb c ESC); [|reflexivity]. cbn [andb].
      destruct clean as [|d clean].
      - intros _. destruct Hrest as [->|[rest' ->]]; reflexivity.
      - cbn [append]. rewrite prefix_cons, prefix_nil.
        destruct (Ascii.eqb_spec "[" d) as [<-|Hne]; [discriminate|].
        intros _. destruct d as [[] [] [] [] [] [] [] []]; try reflexivity.
        now destruct Hne. }
    rewrite Htest, (IH (S i) Hclean' Hrest), append_assoc.
    now rewrite <- plus_n_Sm.
Qed.

Lemma colorize_no_escape_start (randomColors : list string) (text : string) (i : nat) :
  no_escape_start text ->
  colorize randomColors false i text = spec_paint randomColors i text.
Proof.
  intros H. rewrite <- (append_nil_r text) at 1.
  rewrite (colorize_clean _ text "" i H (or_introl eq_refl)).
  cbn [colorize]. apply append_nil_r.
Qed.

(** Inside an escape sequence that no ['m'] ends, the loop copies to the
    end of the text and appends the ['m']. *)
Lemma colorize_passthrough (randomColors : list string) (tail : string) :
  forall i,
  string_forall not_m tail = true ->
  colorize randomColors true i tail = tail ++ "m".
Proof.
  induction tail as [|c tail IH]; intros i; [reflexivity|].
  cbn [string_forall colorize append]. rewrite andb_true_iff. intros [Hc Htail].
  unfold not_m in Hc. rewrite negb_true_iff in Hc. rewrite Hc.
  now rewrite IH.
Qed.

Lemma palette_code (c : string) :
  In c palette -> exists body, c = csi (body ++ "m") /\ string_forall not_m body = true.
Proof.
  cbn [palette In]. intros H.
  repeat (destruct H as [<-|H];
          [match goal with
           | |- exists body, csi ?code = _ /\ _ =>
               exists (String.substring 0 2 code); split; reflexivity
           end|]).
  destruct H.
Qed.

Lemma slot_in_palette (slots : list string) (i : nat) :
  Permutation slots palette -> In (nth (i mod 6) slots "") palette.
Proof.
  intros Hperm. apply (Permutation_in _ Hperm). apply nth_In.
  rewrite (Permutation_length Hperm). apply Nat.mod_upper_bound. discriminate.
Qed.

Lemma strip_paint (slots : list string) :
  Permutation slots palette ->
  forall todo done i,
  no_escape_start (done ++ todo) ->
  removePreviousFormats (done ++ spec_paint slots i todo ++ RESET) = done ++ todo.
Proof.
  intros Hperm. induction todo as [|c todo IH]; intros done i Hclean.
  - cbn [spec_paint append]. rewrite append_nil_r in *.
    now apply removePreviousFormats_reset.
  - cbn [spec_paint].
    destruct (palette_code _ (slot_in_palette slots i Hperm)) as (body & -> & Hbody).
    rewrite (append_assoc (csi (body ++ "m"))).
    rewrite removePreviousFormats_escape;
      [|eapply no_escape_start_app_l; exact Hclean|exact Hbody].
    change (String c (spec_paint slots (S i) todo) ++ RESET)
      with (String c "" ++ spec_paint slots (S i) todo ++ RESET).
    rewrite <- append_assoc, IH.
    + now rewrite append_assoc.
    + now rewrite append_assoc.
Qed.

Lemma codes_of_styles_escapes (tokens : list string) :
  escapes (codes_of _styles tokens).
Proof.
  induction tokens as [|t rest IH]; [constructor|].
  cbn [codes_of]. unfold code_of.
  destruct (lookup t _styles) as [[j code]|] eqn:Hs; [|exact IH].
  constructor; [|exact IH].
  apply in_or_app. right. eapply lookup_from_code, Hs.
Qed.

Section RainbowRoundTrip.

Variable RandState : Type.
Variable rand : RandState -> nat * RandState.

(** X12. Stripping what [rainbow] returns gives back its text: when the
    one free text among the slots holds no start marker of an escape
    sequence, [removePreviousFormats] of the result is that text, for
    every generator and every style given with it. *)
Theorem X12_rainbow_round_trip (g : RandState) (a1 a2 a3 a4 a5 text : string) :
  texts_of (before_gap [a1; a2; a3; a4; a5]) = [text] ->
  no_escape_start text ->
  exists out,
    fst (rainbow RandState rand g a1 a2 a3 a4 a5) = Returned out
    /\ removePreviousFormats out = text.
Proof.
  intros Htexts Hclean. unfold rainbow.
  rewrite scanArguments_spec, Htexts.
  rewrite (texts_of_before_gap_nonempty [a1; a2; a3; a4; a5] text)
    by (rewrite Htexts; now left).
  pose proof (shuffle_permutation RandState rand g) as Hperm.
  destruct (shuffle RandState rand g) as [randomColors g']. cbn [fst] in *.
  eexists. split; [reflexivity|].
  rewrite (removePreviousFormats_escapes _ _ (codes_of_styles_escapes _)).
  rewrite (removeLoop_no_csi _ _ Hclean
           : removePreviousFormats text = text).
  rewrite (colorize_no_escape_start _ _ _ Hclean), <- paint_firstn.
  apply (strip_paint _ Hperm text "" 0 Hclean).
Qed.

(** X13. A start marker that no ['m'] follows survives the stripping, and
    [rainbow] then closes it: for a free text made of a part without start
    marker and of [ESC '[' tail] with no ['m'] in [tail], the result is the
    style prefix, the painted first part, then [ESC '[' tail] uncoloured
    with an ['m'] appended, then the reset sequence. *)
Theorem X13_rainbow_closes_fragment
  (g : RandState) (a1 a2 a3 a4 a5 clean tail : string) :
  texts_of (before_gap [a1; a2; a3; a4; a5]) = [clean ++ csi tail] ->
  no_escape_start clean ->
  string_forall not_m tail = true ->
  exists slots,
    Permutation slots palette
    /\ fst (rainbow RandState rand g a1 a2 a3 a4 a5)
       = Returned (codes_of _styles (before_gap [a1; a2; a3; a4; a5])
                   ++ (spec_paint slots 0 clean ++ csi tail ++ "m") ++ RESET).
Proof.
  intros Htexts Hclean Htail. unfold rainbow.
  rewrite scanArguments_spec, Htexts.
  rewrite (texts_of_before_gap_nonempty [a1; a2; a3; a4; a5] (clean ++ csi tail))
    by (rewrite Htexts; now left).
  pose proof (shuffle_permutation RandState rand g) as Hperm.
  destruct (shuffle RandState rand g) as [randomColors g']. cbn [fst] in *.
  exists (firstn 6 randomColors). split; [assumption|].
  assert (Hsettled : settled (clean ++ csi tail)).
  { unfold settled. rewrite (find_csi_before_csi clean tail Hclean), find_char_after.
    change (csi tail) with (String ESC (String "[" tail)).
    cbn [StdString.find_char Ascii.eqb Bool.eqb ESC]. cbn [option_map].
    assert (Hnone : forall s, string_forall not_m s = true ->
                              StdString.find_char "m" 0 s = None).
    { clear. induction s as [|c s IH]; [reflexivity|].
      cbn [string_forall StdString.find_char]. rewrite andb_true_iff.
      unfold not_m at 1. rewrite negb_true_iff. intros [-> Hs].
      now rewrite (IH Hs). }
    now rewrite (Hnone tail Htail). }
  rewrite (removeLoop_of_settled _ _ Hsettled
           : removePreviousFormats (clean ++ csi tail) = clean ++ csi tail).
  rewrite (colorize_clean _ clean (csi tail) 0 Hclean)
    by (right; eexists; reflexivity).
  change (csi tail) with (String ESC (String "[" tail)) at 1.
  cbn [colorize Ascii.eqb Bool.eqb ESC andb].
  rewrite colorize_passthrough by assumption.
  now rewrite paint_firstn.
Qed.

End RainbowRoundTrip.

Lemma X12_rainbow_round_trip_witness :
  exists out,
    fst (rainbow nat counting_rand 0 "bold" "hello mom" "blink" "" "") = Returned out
    /\ removePreviousFormats out = "hello mom".
Proof.
  apply (X12_rainbow_round_trip nat counting_rand 0 "bold" "hello mom" "blink" "" "");
    reflexivity.
Defined.

Lemma X13_rainbow_closes_fragment_witness :
  exists slots,
    Permutation slots palette
    /\ fst (rainbow nat counting_rand 0 ("ab" ++ csi "31;1") "" "" "" "")
       = Returned ((spec_paint slots 0 "ab" ++ csi "31;1" ++ "m") ++ RESET).
Proof.
  apply (X13_rainbow_closes_fragment nat counting_rand 0
           ("ab" ++ csi "31;1") "" "" "" "" "ab" "31;1"); reflexivity.
Defined.

(* ------------------------------------------------------------------ *)
(** ** The reset at the end, and the objects of the class *)

Lemma formatTokens_closed (text : string) (parameters : list string) (out : string) :
  formatTokens text parameters = Returned out ->
  (text = "" /\ out = "") \/ (text <> "" /\ exists body, out = body ++ RESET).
Proof.
  unfold formatTokens. destruct text as [|c text].
  - intros [= <-]. now left.
  - cbn [StdString.empty].
    destruct (classifyAll fmt_init parameters) as [st|]; [|discriminate].
    cbn [bind]. intros [= <-]. right. split; [discriminate|].
    eexists. rewrite <- !append_assoc. reflexivity.
Qed.

Lemma formatUnsignedInteger_closed (number : Z) (f1 f2 f3 f4 f5 f6 out : string) :
  formatUnsignedInteger number f1 f2 f3 f4 f5 f6 = Returned out ->
  exists body, out = body ++ RESET.
Proof.
  unfold formatUnsignedInteger, formatString. intros H.
  destruct (formatTokens_closed _ _ _ H) as [[Hempty _]|[_ Hbody]]; [|exact Hbody].
  pose proof (groupedDigits_not_empty number) as Hne.
  rewrite Hempty in Hne. discriminate.
Qed.

(** X14. No formatter leaves the terminal formatted: whatever
    [formatString], [formatUnsignedInteger],
    [formatGradientUnsignedInteger] or [rainbow] returns ends with the
    reset sequence, but for the empty result of [formatString] on the
    empty text and the symbol of [rainbow] without text. *)
Theorem X14_results_end_with_reset :
  (forall text f1 f2 f3 f4 f5 f6 out,
     formatString text f1 f2 f3 f4 f5 f6 = Returned out ->
     (text = "" /\ out = "") \/ (text <> "" /\ exists body, out = body ++ RESET))
  /\ (forall number f1 f2 f3 f4 f5 f6 out,
        formatUnsignedInteger number f1 f2 f3 f4 f5 f6 = Returned out ->
        exists body, out = body ++ RESET)
  /\ (forall number minimum maximum f1 f2 f3 f4 f5 out,
        formatGradientUnsignedInteger number minimum maximum f1 f2 f3 f4 f5
        = Returned out ->
        exists body, out = body ++ RESET)
  /\ (forall (RandState : Type) (rand : RandState -> nat * RandState) g
             a1 a2 a3 a4 a5 out,
        fst (rainbow RandState rand g a1 a2 a3 a4 a5) = Returned out ->
        (texts_of (before_gap [a1; a2; a3; a4; a5]) = [] /\ out = rainbow_symbol)
        \/ exists body, out = body ++ RESET).
Proof.
  split; [|split; [|split]].
  - intros text f1 f2 f3 f4 f5 f6 out. apply formatTokens_closed.
  - intros number f1 f2 f3 f4 f5 f6 out. apply formatUnsignedInteger_closed.
  - intros number minimum maximum f1 f2 f3 f4 f5 out.
    unfold formatGradientUnsignedInteger.
    destruct (hasColor _); [discriminate|].
    destruct (tooLow _ _ _); [apply formatUnsignedInteger_closed|].
    destruct (tooHigh _ _ _); [apply formatUnsignedInteger_closed|].
    destruct (formatUnsignedInteger number f1 f2 f3 f4 f5 "") as [body|];
      [|discriminate].
    cbn [bind]. intros H. injection H as <-.
    exists (csi ("38;5;" ++ decimal (gradientIndex number minimum maximum) ++ "m")
            ++ body).
    symmetry. apply append_assoc.
  - intros RandState rand g a1 a2 a3 a4 a5 out.
    pose proof (rainbow_outcomes RandState rand g a1 a2 a3 a4 a5) as H.
    destruct (texts_of (before_gap [a1; a2; a3; a4; a5])) as [|t [|t' ts]];
      rewrite H; cbn [fst].
    + intros [= <-]. now left.
    + intros [= <-]. right. eexists. rewrite <- !append_assoc. reflexivity.
    + discriminate.
Qed.

(** X15. The string that [getFormattedString] returns for a [ColorFormat]
    object, however the object was constructed, copied and assigned (to
    itself as well), is empty or ends with the reset sequence, and its
    stripped form holds no start marker of an escape sequence. *)
Theorem X15_objects_end_with_reset (o : ColorFormat) :
  reachable o ->
  closed_by_reset (getFormattedString o)
  /\ no_escape_start (removePreviousFormats (getFormattedString o)).
Proof.
  intros H.
  assert (Hclosed : closed_by_reset (getFormattedString o)).
  { induction H as [text f1 f2 f3 f4 f5 o Hc|source _ IH|same this source _ IHt _ IHs].
    - unfold construct in Hc.
      destruct (formatString text f1 f2 f3 f4 f5 "") as [s|] eqn:Hs; [|discriminate].
      cbn [bind] in Hc. injection Hc as <-. cbn [getFormattedString _formattedString].
      destruct (formatTokens_closed _ _ _ Hs) as [[_ ->]|[_ Hbody]];
        [now left|now right].
    - exact IH.
    - destruct same; [exact IHt|exact IHs]. }
  split; [assumption|].
  destruct Hclosed as [->|[body ->]]; [reflexivity|].
  change RESET with (csi "0" ++ "m"). rewrite <- append_assoc.
  apply removePreviousFormats_final_m.
Qed.

Lemma X15_objects_end_with_reset_witness :
  closed_by_reset (csi "1m" ++ "x" ++ RESET)
  /\ no_escape_start (removePreviousFormats (csi "1m" ++ "x" ++ RESET)).
Proof.
  apply (X15_objects_end_with_reset
           (assign_from false {| _formattedString := "" |}
              (copy_construct {| _formattedString := csi "1m" ++ "x" ++ RESET |}))).
  apply reach_assign.
  - apply (reach_construct "" "red" "" "" "" ""). reflexivity.
  - apply reach_copy. apply (reach_construct "x" "bold" "" "" "" ""). reflexivity.
Defined.

(* ------------------------------------------------------------------ *)
(** ** The two ends of the gradient *)

Local Open Scope Z_scope.

(** The double of a positive [unsigned int]. *)
Lemma digits2_pos_iter (p k : positive) :
  digits2_pos (Pos.iter xO p k) = (digits2_pos p + k)%positive.
Proof.
  induction k using Pos.peano_ind.
  - cbn. lia.
  - rewrite Pos.iter_succ. cbn [digits2_pos]. rewrite IHk. lia.
Qed.

Lemma digits2_pos_size (p : positive) : digits2_pos p = Pos.size p.
Proof. induction p; cbn; congruence. Qed.

Lemma digits2_pos_bound (p : positive) :
  Z.pos p < 2 ^ 32 -> (digits2_pos p <= 32)%positive.
Proof.
  intros H. rewrite digits2_pos_size. pose proof (Pos.size_le p) as Hle.
  destruct (Pos.leb_spec (Pos.size p) 32) as [|Hgt]; [assumption|exfalso].
  apply Pos2Z.pos_le_pos in Hle. rewrite Pos2Z.inj_pow in Hle.
  assert (Hpow : 2 ^ 33 <= 2 ^ Z.pos (Pos.size p)) by (apply Z.pow_le_mono_r; lia).
  change (Z.pos p~0) with (2 * Z.pos p) in Hle.
  change (2 ^ 32) with 4294967296 in H. change (2 ^ 33) with 8589934592 in Hpow.
  revert Hle Hpow. generalize (2 ^ Z.pos (Pos.size p)). intros. lia.
Qed.

Lemma binary_normalize_uint (p : positive) :
  Z.pos p < 2 ^ 32 ->
  binary_normalize prec emax (Z.pos p) 0 false
  = S754_finite false (Pos.iter xO p (53 - digits2_pos p))
      (Z.pos (digits2_pos p) - 53).
Proof.
  intros H. pose proof (digits2_pos_bound p H) as Hd.
  set (d := digits2_pos p) in *.
  unfold binary_normalize, binary_round.
  assert (Hfexp : fexp prec emax (Z.pos d + 0) = Z.pos d - 53).
  { unfold fexp, SpecFloat.emin, prec, emax. lia. }
  fold d. rewrite Hfexp.
  unfold shl_align.
  replace (Z.pos d - 53 - 0) with (Z.neg (53 - d)) by lia.
  unfold binary_round_aux, shr_fexp.
  cbn [Zdigits2]. rewrite digits2_pos_iter. fold d.
  replace (fexp prec emax (Z.pos (d + (53 - d)) + (Z.pos d - 53))) with (Z.pos d - 53).
  2:{ unfold fexp, SpecFloat.emin, prec, emax. lia. }
  rewrite Z.sub_diag. cbn [shr shr_record_of_loc shr_m loc_of_shr_record round_nearest_even].
  cbn [Zdigits2]. rewrite digits2_pos_iter. fold d.
  replace (fexp prec emax (Z.pos (d + (53 - d)) + (Z.pos d - 53))) with (Z.pos d - 53).
  2:{ unfold fexp, SpecFloat.emin, prec, emax. lia. }
  rewrite Z.sub_diag. cbn [shr shr_m].
  replace (Z.pos d - 53 <=? emax - prec) with true; [reflexivity|].
  unfold emax, prec. lia.
Qed.

Lemma double_of_uint_finite (n : Z) :
  0 < n < 2 ^ 32 ->
  exists m e, Prim2SF (double_of_uint n) = S754_finite false m e.
Proof.
  intros Hn. unfold double_of_uint. rewrite of_uint63_spec, Uint63.of_Z_spec.
  rewrite Z.mod_small.
  - destruct n as [|p|p]; try lia.
    rewrite binary_normalize_uint by lia. eauto.
  - change Uint63Axioms.wB with (2 ^ 63). change (2 ^ 32) with 4294967296 in Hn.
    change (2 ^ 63) with 9223372036854775808. lia.
Qed.

(** Arithmetic on a positive finite double. *)
Lemma div_eucl_shift (m : positive) :
  Z.div_eucl (Z.shiftl (Z.pos m) 53) (Z.pos m) = (2 ^ 53, 0).
Proof.
  rewrite Z.shiftl_mul_pow2 by lia.
  pose proof (Z.div_mul (2 ^ 53) (Z.pos m)) as Hq.
  pose proof (Z.mod_mul (2 ^ 53) (Z.pos m)) as Hr.
  unfold Z.div, Z.modulo in Hq, Hr. rewrite (Z.mul_comm (Z.pos m)).
  destruct (Z.div_eucl (2 ^ 53 * Z.pos m) (Z.pos m)) as [q r].
  rewrite Hq, Hr by lia. reflexivity.
Qed.

Lemma div_self (x : float) (m : positive) (e : Z) :
  Prim2SF x = S754_finite false m e -> (x / x)%float = 1%float.
Proof.
  intros Hx. apply Prim2SF_inj. rewrite div_spec, Hx.
  unfold SF64div, SFdiv, SFdiv_core_binary.
  rewrite !Z.sub_diag.
  change (Z.min (fexp prec emax 0) 0) with (-53).
  change (0 - -53) with 53.
  cbv beta iota zeta. rewrite div_eucl_shift.
  assert (Hloc : new_location (Z.pos m) 0 = loc_Exact).
  { unfold new_location. destruct (Z.even (Z.pos m)); reflexivity. }
  rewrite Hloc. reflexivity.
Qed.

Lemma zero_div (x : float) (m : positive) (e : Z) :
  Prim2SF x = S754_finite false m e -> (0 / x)%float = 0%float.
Proof.
  intros Hx. apply Prim2SF_inj. rewrite div_spec, Hx. reflexivity.
Qed.

Lemma finite_not_zero (x : float) (m : positive) (e : Z) :
  Prim2SF x = S754_finite false m e -> (x =? 0)%float = false.
Proof. intros Hx. rewrite eqb_spec, Hx. reflexivity. Qed.

Lemma usub_self (a : Z) : usub a a = 0.
Proof. unfold usub. now rewrite Z.sub_diag. Qed.

Lemma gradientRatio_ends (minimum maximum : Z) :
  is_uint minimum -> is_uint maximum -> minimum <> maximum ->
  gradientRatio minimum minimum maximum = 0%float
  /\ gradientRatio maximum minimum maximum = 1%float.
Proof.
  intros Hmin Hmax Hne. unfold gradientRatio.
  rewrite !usub_self, Z.gtb_ltb. change (double_of_uint 0) with 0%float.
  destruct (Z.ltb_spec maximum minimum) as [Hrev|Hasc].
  - rewrite (usub_exact minimum maximum) by (assumption || lia).
    destruct (double_of_uint_finite (minimum - maximum)) as (m & e & Hf).
    { unfold is_uint, UINT_RANGE in *. lia. }
    rewrite (finite_not_zero _ _ _ Hf). cbn [negb].
    rewrite (div_self _ _ _ Hf), (zero_div _ _ _ Hf). split; reflexivity.
  - rewrite (usub_exact maximum minimum) by (assumption || lia).
    destruct (double_of_uint_finite (maximum - minimum)) as (m & e & Hf).
    { unfold is_uint, UINT_RANGE in *. lia. }
    rewrite (finite_not_zero _ _ _ Hf). cbn [negb].
    rewrite (div_self _ _ _ Hf), (zero_div _ _ _ Hf). split; reflexivity.
Qed.

(** X16. The gradient runs from pure red to pure green in the direction of
    its bounds: for unsigned bounds that differ, ascending or descending,
    the ratio of the number [minimum] is exactly 0.0 and its colour the
    cube index 196, the ratio of the number [maximum] is exactly 1.0 and
    its colour the cube index 46. *)
Theorem X16_gradient_ends (minimum maximum : Z) (f1 f2 f3 f4 f5 : string) :
  is_uint minimum -> is_uint maximum -> minimum <> maximum ->
  hasColor [f1; f2; f3; f4; f5] = false ->
  gradientRatio minimum minimum maximum = 0%float
  /\ gradientRatio maximum minimum maximum = 1%float
  /\ formatGradientUnsignedInteger minimum minimum maximum f1 f2 f3 f4 f5
     = (body <- formatUnsignedInteger minimum f1 f2 f3 f4 f5 "" ;;
        Returned (csi "38;5;196m" ++ body ++ RESET))
  /\ formatGradientUnsignedInteger maximum minimum maximum f1 f2 f3 f4 f5
     = (body <- formatUnsignedInteger maximum f1 f2 f3 f4 f5 "" ;;
        Returned (csi "38;5;46m" ++ body ++ RESET)).
Proof.
  intros Hmin Hmax Hne Hc.
  destruct (gradientRatio_ends minimum maximum Hmin Hmax Hne) as [H0 H1].
  split; [assumption|]. split; [assumption|].
  unfold formatGradientUnsignedInteger, gradientIndex. rewrite Hc, H0, H1.
  destruct (in_range_guards minimum minimum maximum) as [-> ->];
    [unfold in_range; lia|].
  destruct (in_range_guards maximum minimum maximum) as [-> ->];
    [unfold in_range; lia|].
  split; reflexivity.
Qed.

Lemma X16_gradient_ends_witness :
  gradientRatio 7 7 4000000000 = 0%float
  /\ gradientRatio 4000000000 7 4000000000 = 1%float.
Proof.
  destruct (X16_gradient_ends 7 4000000000 "bold" "" "" "" "") as (H0 & H1 & _);
    [unfold is_uint, UINT_RANGE; lia|unfold is_uint, UINT_RANGE; lia
    |lia|reflexivity|split; assumption].
Defined.

(** *** The middle of the gradient *)

Lemma double_of_uint_exact (p : positive) :
  Z.pos p < 2 ^ 32 ->
  Prim2SF (double_of_uint (Z.pos p))
  = S754_finite false (Pos.iter xO p (53 - digits2_pos p))
      (Z.pos (digits2_pos p) - 53).
Proof.
  intros Hp. unfold double_of_uint. rewrite of_uint63_spec, Uint63.of_Z_spec.
  rewrite Z.mod_small; [now apply binary_normalize_uint|].
  change Uint63Axioms.wB with 9223372036854775808.
  change (2 ^ 32) with 4294967296 in Hp. lia.
Qed.

(** Twice a number has the same mantissa and the next exponent. *)
Lemma double_of_uint_twice (p : positive) :
  Z.pos p~0 < 2 ^ 32 ->
  exists m e,
    Prim2SF (double_of_uint (Z.pos p)) = S754_finite false m e
    /\ Prim2SF (double_of_uint (Z.pos p~0)) = S754_finite false m (e + 1).
Proof.
  intros H2p.
  assert (Hp : Z.pos p < 2 ^ 32) by lia.
  pose proof (digits2_pos_bound _ H2p) as Hd. cbn [digits2_pos] in Hd.
  exists (Pos.iter xO p (53 - digits2_pos p)), (Z.pos (digits2_pos p) - 53).
  split; [now apply double_of_uint_exact|].
  rewrite (double_of_uint_exact _ H2p). cbn [digits2_pos]. f_equal.
  - replace (53 - digits2_pos p)%positive
      with (Pos.succ (53 - Pos.succ (digits2_pos p))) by lia.
    now rewrite Pos.iter_succ_r.
  - lia.
Qed.

Lemma div_half (x y : float) (m : positive) (e : Z) :
  Prim2SF x = S754_finite false m e ->
  Prim2SF y = S754_finite false m (e + 1) ->
  (x / y)%float = 0.5%float.
Proof.
  intros Hx Hy. apply Prim2SF_inj. rewrite div_spec, Hx, Hy.
  unfold SF64div, SFdiv, SFdiv_core_binary.
  replace (Zdigits2 (Z.pos m) + e - (Zdigits2 (Z.pos m) + (e + 1))) with (-1) by lia.
  replace (e - (e + 1)) with (-1) by lia.
  change (Z.min (fexp prec emax (-1)) (-1)) with (-54).
  change (-1 - -54) with 53.
  cbv beta iota zeta. rewrite div_eucl_shift.
  assert (Hloc : new_location (Z.pos m) 0 = loc_Exact).
  { unfold new_location. destruct (Z.even (Z.pos m)); reflexivity. }
  rewrite Hloc. reflexivity.
Qed.

Lemma gradientRatio_middle (number minimum maximum : Z) :
  is_uint minimum -> is_uint maximum -> minimum <> maximum ->
  2 * number = minimum + maximum ->
  gradientRatio number minimum maximum = 0.5%float.
Proof.
  intros Hmin Hmax Hne Hmid.
  assert (Hn : is_uint number) by (unfold is_uint, UINT_RANGE in *; lia).
  unfold gradientRatio. rewrite Z.gtb_ltb.
  destruct (Z.ltb_spec maximum minimum) as [Hrev|Hasc].
  - rewrite (usub_exact minimum maximum), (usub_exact number maximum)
      by (assumption || lia).
    assert (Hh : exists p, number - maximum = Z.pos p
                           /\ minimum - maximum = Z.pos p~0).
    { destruct (number - maximum) as [|p|p] eqn:Hp; try lia.
      exists p. split; [reflexivity|]. rewrite Pos2Z.inj_xO. lia. }
    destruct Hh as (p & Hp1 & Hp2). rewrite Hp1, Hp2.
    destruct (double_of_uint_twice p) as (m & e & Hx & Hy).
    { unfold is_uint, UINT_RANGE in *. lia. }
    rewrite (finite_not_zero _ _ _ Hy). cbn [negb].
    rewrite (div_half _ _ _ _ Hx Hy). reflexivity.
  - rewrite (usub_exact maximum minimum), (usub_exact number minimum)
      by (assumption || lia).
    assert (Hh : exists p, number - minimum = Z.pos p
                           /\ maximum - minimum = Z.pos p~0).
    { destruct (number - minimum) as [|p|p] eqn:Hp; try lia.
      exists p. split; [reflexivity|]. rewrite Pos2Z.inj_xO. lia. }
    destruct Hh as (p & Hp1 & Hp2). rewrite Hp1, Hp2.
    destruct (double_of_uint_twice p) as (m & e & Hx & Hy).
    { unfold is_uint, UINT_RANGE in *. lia. }
    rewrite (finite_not_zero _ _ _ Hy). cbn [negb].
    rewrite (div_half _ _ _ _ Hx Hy). reflexivity.
Qed.

(** X17. The middle of the gradient is pure yellow in both directions: for
    unsigned bounds that differ and a number half-way between them, the
    ratio is exactly 0.5 and the colour is the cube index 226. *)
Theorem X17_gradient_middle
  (number minimum maximum : Z) (f1 f2 f3 f4 f5 : string) :
  is_uint minimum -> is_uint maximum -> minimum <> maximum ->
  2 * number = minimum + maximum ->
  hasColor [f1; f2; f3; f4; f5] = false ->
  gradientRatio number minimum maximum = 0.5%float
  /\ formatGradientUnsignedInteger number minimum maximum f1 f2 f3 f4 f5
     = (body <- formatUnsignedInteger number f1 f2 f3 f4 f5 "" ;;
        Returned (csi "38;5;226m" ++ body ++ RESET)).
Proof.
  intros Hmin Hmax Hne Hmid Hc.
  pose proof (gradientRatio_middle number minimum maximum Hmin Hmax Hne Hmid) as Hr.
  split; [assumption|].
  unfold formatGradientUnsignedInteger, gradientIndex. rewrite Hc, Hr.
  destruct (in_range_guards number minimum maximum) as [-> ->];
    [unfold in_range; lia|].
  reflexivity.
Qed.

Lemma X17_gradient_middle_witness :
  gradientRatio 2000000003 4000000000 6 = 0.5%float.
Proof.
  destruct (X17_gradient_middle 2000000003 4000000000 6 "" "" "" "" "") as [H _];
    [unfold is_uint, UINT_RANGE; lia|unfold is_uint, UINT_RANGE; lia
    |lia|lia|reflexivity|exact H].
Defined.

Local Close Scope Z_scope.
